(** * Heuristic linguistic risk scorer: [text_analyzer.py] and its caller in [app.py]

    A shallow embedding of [TextAnalyzer] (the five sub-scores, their weighted
    combination, the warning flags and the verdict) and of [predict_news],
    followed by the properties the specification states about them.

    Modelling conventions.
    - A Python [str] is a sequence of Unicode code points: [str := list N].
    - Python floats are modelled by exact rationals ([Q]); equalities between
      scores are therefore stated with [==] and rounding error is not modelled.
    - The whitespace table used by [str.strip] and [str.split] is small and is
      written out in full ([isspace]).  The alphabetic / upper-case / lower-case
      tables of the Python runtime are not part of the repository: they are the
      fields of the class [UnicodeData], and every theorem holds for any such
      tables.  [ascii_tables] is the fragment for code points below 128, used
      to run the definitions on concrete texts.
    - A Python [dict] with string keys is a [gmap string value]. *)

From Stdlib Require Import Ascii QArith Qminmax Qround Lqa.
From stdpp Require Import base list strings gmap.

(** ** Python strings *)

Module PyStr.

Definition char := N.
Definition str := list char.

(** A literal of the source, given by its ASCII spelling. *)
Definition lit (s : string) : str :=
  List.map Ascii.N_of_ascii (String.list_ascii_of_string s).

(** A character of the source, given by its ASCII spelling. *)
Definition chr (a : Ascii.ascii) : char := Ascii.N_of_ascii a.
Arguments chr a%_char.

(** [c.isspace()]: the code points Python treats as whitespace. *)
Definition isspace (c : char) : bool :=
  ((9 <=? c) && (c <=? 13) || (28 <=? c) && (c <=? 32)
   || (c =? 133) || (c =? 160) || (c =? 5760)
   || (8192 <=? c) && (c <=? 8202)
   || (c =? 8232) || (c =? 8233) || (c =? 8239) || (c =? 8287)
   || (c =? 12288))%N.

(** The tables of the Python runtime that the analyzer consults:
    [c.isalpha()], [c.isupper()] and [s.lower()]. *)
Class UnicodeData := {
  isalpha : char -> bool;
  isupper : char -> bool;
  lower : str -> str
}.

Definition ascii_isupper (c : char) : bool := ((65 <=? c) && (c <=? 90))%N.
Definition ascii_islower (c : char) : bool := ((97 <=? c) && (c <=? 122))%N.
Definition ascii_tolower (c : char) : char :=
  if ascii_isupper c then (c + 32)%N else c.

(** The tables restricted to code points below 128. *)
Definition ascii_tables : UnicodeData := {|
  isalpha := fun c => ascii_isupper c || ascii_islower c;
  isupper := ascii_isupper;
  lower := List.map ascii_tolower
|}.

(** [s.lstrip()], [s.rstrip()], [s.strip()] *)
Fixpoint lstrip (s : str) : str :=
  match s with
  | [] => []
  | c :: s' => if isspace c then lstrip s' else s
  end.

Definition rstrip (s : str) : str := rev (lstrip (rev s)).

Definition strip (s : str) : str := rstrip (lstrip s).

(** [s.split()]: the maximal whitespace-free pieces of [s], in order.
    [cur] is the piece being read, most recent character first. *)
Fixpoint split_from (cur : str) (s : str) : list str :=
  match s with
  | [] => match cur with [] => [] | _ => [rev cur] end
  | c :: s' =>
      if isspace c then
        match cur with
        | [] => split_from [] s'
        | _ => rev cur :: split_from [] s'
        end
      else split_from (c :: cur) s'
  end.

Definition split (s : str) : list str := split_from [] s.

(** [s.startswith(p)] *)
Fixpoint startswith (p s : str) : bool :=
  match p, s with
  | [], _ => true
  | _ :: _, [] => false
  | a :: p', b :: s' => (a =? b)%N && startswith p' s'
  end.

(** [w in s] *)
Fixpoint contains (w s : str) : bool :=
  startswith w s ||
  match s with
  | [] => false
  | _ :: s' => contains w s'
  end.

(** [s.count(sub)]: occurrences of [sub] found scanning left to right,
    resuming after each occurrence.  [skip] is the number of characters
    of the last occurrence still to be passed over. *)
Fixpoint count_from (sub : str) (skip : nat) (s : str) : nat :=
  match s with
  | [] => 0
  | _ :: s' =>
      match skip with
      | S k => count_from sub k s'
      | O =>
          if startswith sub s
          then S (count_from sub (length sub - 1) s')
          else count_from sub 0 s'
      end
  end.

Definition count (sub s : str) : nat :=
  match sub with
  | [] => S (length s)
  | _ => count_from sub 0 s
  end.

(** Length of the run of [c] at the head of [s]. *)
Fixpoint run_length (c : char) (s : str) : nat :=
  match s with
  | a :: s' => if (a =? c)%N then S (run_length c s') else 0
  | [] => 0
  end.

(** [re.findall(r'c{k,}', s)] for [k >= 1]: at each position the greedy
    repetition takes the whole run of [c]; when that run has at least [k]
    characters it is a match and the search resumes after it. *)
Fixpoint findall_from (c : char) (k : nat) (skip : nat) (s : str) : list str :=
  match s with
  | [] => []
  | _ :: s' =>
      match skip with
      | S j => findall_from c k j s'
      | O =>
          let n := run_length c s in
          if (k <=? n)%nat
          then replicate n c :: findall_from c k (n - 1) s'
          else findall_from c k 0 s'
      end
  end.

Definition findall_rep (c : char) (k : nat) (s : str) : list str :=
  findall_from c k 0 s.

End PyStr.

(** ** Python numbers and values *)

Module Py.
Import PyStr.

(** An [int] used where a float is expected. *)
Definition Qnat (n : nat) : Q := inject_Z (Z.of_nat n).

(** [a > b] on floats. *)
Definition gt (a b : Q) : bool := negb (Qle_bool a b).

(** Nearest integer, ties to the even one. *)
Definition round_half_even (q : Q) : Z :=
  let f := Qfloor q in
  match (q - inject_Z f ?= 1 # 2)%Q with
  | Lt => f
  | Gt => (f + 1)%Z
  | Eq => if Z.even f then f else (f + 1)%Z
  end.

(** [round(x, ndigits)] *)
Definition round (x : Q) (ndigits : nat) : Q :=
  let scale := inject_Z (10 ^ Z.of_nat ndigits) in
  (inject_Z (round_half_even (x * scale)) / scale)%Q.

(** The values stored in the dictionaries the program returns. *)
#[warnings="-register-all"]
Inductive value :=
| VFloat (x : Q)
| VStr (s : str)
| VList (l : list str)
| VDict (d : gmap string value).

End Py.

(** ** [text_analyzer.py] *)

Module TextAnalyzer.
Import PyStr Py.

Section Analyzer.
Context `{UnicodeData}.
Local Open Scope Q_scope.

Definition sensational_keywords : list str :=
  lit <$>
  [ "shocking"; "banned"; "exposed"; "truth"; "breaking";
    "urgent"; "alert"; "scandal"; "secret"; "revealed";
    "unbelievable"; "miracle"; "warning"; "danger"; "crisis";
    "leaked"; "exclusive"; "bombshell"; "proof"; "evidence" ]%string.

Definition emotional_words : list str :=
  lit <$>
  [ "fear"; "angry"; "hate"; "love"; "terrifying";
    "amazing"; "horrible"; "disgusting"; "outrageous" ]%string.

(** [sum(1 for word in words if word in text_lower)] *)
Definition keyword_count (words : list str) (text_lower : str) : nat :=
  length (List.filter (fun word => contains word text_lower) words).

Definition _check_sensationalism (text : str) : Q :=
  let text_lower := lower text in
  let count := keyword_count sensational_keywords text_lower in
  let score := Qmin (Qnat count / 3.0) 1.0 in
  score.

Definition _check_punctuation (text : str) : Q :=
  let exclamations := count (lit "!") text in
  let questions := count (lit "?") text in
  let interrobangs := count (lit "?!") text in
  let ellipses := length (findall_rep (chr ".") 3 text) in
  let multiple_exclaim := length (findall_rep (chr "!") 2 text) in
  let total_anomalies :=
    (Qnat exclamations / 3) + (Qnat questions / 3) +
    (Qnat interrobangs * 2) + (Qnat ellipses * 1.5) +
    (Qnat multiple_exclaim * 3) in
  let score := Qmin (total_anomalies / 5.0) 1.0 in
  score.

Definition _check_capitalization (text : str) : Q :=
  match text with
  | [] => 0.0
  | _ =>
      let letters := List.filter isalpha text in
      match letters with
      | [] => 0.0
      | _ =>
          let caps_ratio :=
            Qnat (length (List.filter isupper letters)) / Qnat (length letters) in
          if gt caps_ratio 0.6 then 1.0
          else if gt caps_ratio 0.4 then 0.7
          else if gt caps_ratio 0.2 then 0.4
          else caps_ratio * 2
      end
  end.

Definition _check_length (text headline : str) : Q :=
  let word_count := length (split text) in
  if (word_count <? 50)%nat then 1.0 - (Qnat word_count / 50.0)
  else if (word_count <? 100)%nat then 0.3
  else 0.0.

Definition _check_emotional_content (text : str) : Q :=
  let text_lower := lower text in
  let count := keyword_count emotional_words text_lower in
  let score := Qmin (Qnat count / 4.0) 1.0 in
  score.

(** The sign that opens every flag: U+26A0 U+FE0F. *)
Definition warning_sign : str := [9888; 65039]%N.

Definition _generate_flags (sensational punctuation caps length : Q) : list str :=
  let flags := [] in
  let flags :=
    if gt sensational 0.5
    then flags ++ [warning_sign ++ lit " Sensationalist language detected"]
    else flags in
  let flags :=
    if gt punctuation 0.6
    then flags ++ [warning_sign ++ lit " Excessive punctuation"]
    else flags in
  let flags :=
    if gt caps 0.6
    then flags ++ [warning_sign ++ lit " Excessive capitalization (shouting)"]
    else flags in
  let flags :=
    if gt length 0.7
    then flags ++ [warning_sign ++ lit " Suspiciously short content"]
    else flags in
  flags.

(** [body] defaults to the empty string in the source. *)
Definition analyze (headline body : str) : Q * gmap string value :=
  let text := strip (headline ++ lit " " ++ body) in
  match text with
  | [] => (0.0, {[ "error"%string := VStr (lit "Empty text") ]})
  | _ =>
      let sensational_score := _check_sensationalism text in
      let punctuation_score := _check_punctuation text in
      let caps_score := _check_capitalization text in
      let length_score := _check_length text headline in
      let emotional_score := _check_emotional_content text in
      let risk_score :=
        sensational_score * 0.30 +
        punctuation_score * 0.20 +
        caps_score * 0.20 +
        length_score * 0.15 +
        emotional_score * 0.15 in
      let risk_score := Qmax 0.0 (Qmin 1.0 risk_score) in
      let details : gmap string value :=
        list_to_map
          [ ("sensational_score"%string, VFloat (round sensational_score 3));
            ("punctuation_score"%string, VFloat (round punctuation_score 3));
            ("caps_score"%string, VFloat (round caps_score 3));
            ("length_score"%string, VFloat (round length_score 3));
            ("emotional_score"%string, VFloat (round emotional_score 3));
            ("overall_risk"%string, VFloat (round risk_score 3));
            ("flags"%string,
              VList (_generate_flags sensational_score punctuation_score
                                     caps_score length_score)) ] in
      (risk_score, details)
  end.

Definition get_verdict (risk_score : Q) : str :=
  if gt risk_score 0.7 then lit "HIGH RISK"
  else if gt risk_score 0.4 then lit "MODERATE RISK"
  else lit "LOW RISK".

End Analyzer.
End TextAnalyzer.

(** ** [app.py] *)

Module App.
Import PyStr Py.

Section Predict.
Context `{UnicodeData}.
Local Open Scope Q_scope.

(** The trained artefacts loaded at start-up are not part of the repository:
    [preprocess_text] followed by the vectorizer and [model.predict_proba]
    gives the pair (probability of fake, probability of real), and
    [model_name] is [metadata['model_name']].  The unused [ml_prediction]
    is left out. *)
Variable preprocess_text : str -> str.
Variable predict_proba : str -> Q * Q.
Variable model_name : str.

Definition predict_news (headline body : str) : gmap string value :=
  let content := strip (headline ++ lit " " ++ body) in
  match content with
  | [] => {[ "error"%string := VStr (lit "Please provide some text to analyze") ]}
  | _ =>
      let cleaned := preprocess_text content in
      let ml_probability := predict_proba cleaned in
      let ml_fake_score := fst ml_probability in
      let '(heuristic_score, heuristic_details) :=
        TextAnalyzer.analyze headline body in
      let final_score := (ml_fake_score * 0.6) + (heuristic_score * 0.4) in
      let '(verdict, color, confidence) :=
        if gt final_score 0.7 then
          (lit "HIGH RISK - Likely Fake News", lit "danger", final_score * 100)
        else if gt final_score 0.4 then
          (lit "MODERATE RISK - Verify Sources", lit "warning", final_score * 100)
        else
          (lit "LOW RISK - Appears Legitimate", lit "success",
            (1 - final_score) * 100) in
      list_to_map
        [ ("verdict"%string, VStr verdict);
          ("color"%string, VStr color);
          ("confidence"%string, VFloat (round confidence 2));
          ("final_score"%string, VFloat (round final_score 3));
          ("ml_score"%string, VFloat (round ml_fake_score 3));
          ("heuristic_score"%string, VFloat (round heuristic_score 3));
          ("ml_confidence"%string,
            VDict (list_to_map
              [ ("fake"%string, VFloat (round (fst ml_probability * 100) 2));
                ("real"%string, VFloat (round (snd ml_probability * 100) 2)) ]));
          ("heuristic_details"%string, VDict heuristic_details);
          ("model_name"%string, VStr model_name) ]
  end.

End Predict.
End App.

(** ** The quantities named by the specification

    These definitions follow the wording of the specification, not the code;
    the theorems below relate them to the functions of [TextAnalyzer]. *)

Module Spec.
Import PyStr Py.

(** [t] is [s] with its leading and trailing whitespace removed. *)
Definition trimmed_of (s t : str) : Prop :=
  (exists l r : str,
      s = l ++ t ++ r /\ forallb isspace l = true /\ forallb isspace r = true)
  /\ (forall c, head t = Some c -> isspace c = false)
  /\ (forall c, last t = Some c -> isspace c = false).

(** Headline and body joined by a single space. *)
Definition concatenation (headline body : str) : str :=
  headline ++ [chr " "] ++ body.

(** [w] occurs in [t] as a contiguous piece. *)
Definition substring (w t : str) : Prop :=
  exists l r : str, t = l ++ w ++ r.

(** Raw occurrences of the character [c]. *)
Definition occurrences (c : char) (s : str) : nat :=
  length (List.filter (N.eqb c) s).

(** Positions at which the two-character sequence [a b] stands. *)
Fixpoint pair_occurrences (a b : char) (s : str) : nat :=
  match s with
  | [] => 0
  | x :: s' =>
      (match s' with
       | y :: _ => if ((x =? a) && (y =? b))%N then 1 else 0
       | [] => 0
       end + pair_occurrences a b s')%nat
  end.

(** Runs of at least [k] consecutive [c]: the positions not preceded by [c]
    from which at least [k] copies of [c] follow.  [prev] tells whether the
    character before [s] is [c]. *)
Fixpoint run_starts (c : char) (k : nat) (prev : bool) (s : str) : nat :=
  match s with
  | [] => 0
  | x :: s' =>
      ((if negb prev && startswith (replicate k c) s then 1 else 0)
       + run_starts c k (x =? c)%N s')%nat
  end.

Definition runs_at_least (c : char) (k : nat) (s : str) : nat :=
  run_starts c k false s.

Definition exclaim_count := occurrences (chr "!").
Definition question_count := occurrences (chr "?").
Definition interrobang_count := pair_occurrences (chr "?") (chr "!").
Definition ellipsis_run_count := runs_at_least (chr ".") 3.
Definition multi_exclaim_run_count := runs_at_least (chr "!") 2.

(** Whitespace-delimited tokens: the positions where a token begins.
    [prev_space] tells whether the character before [s] is whitespace
    (or [s] is the start of the text). *)
Fixpoint token_starts (prev_space : bool) (s : str) : nat :=
  match s with
  | [] => 0
  | c :: s' =>
      ((if prev_space && negb (isspace c) then 1 else 0)
       + token_starts (isspace c) s')%nat
  end.

Definition word_count (s : str) : nat := token_starts true s.

(** Number of alphabetic characters, and of upper-case ones among them. *)
Definition alphabetic_count `{UnicodeData} (s : str) : nat :=
  length (List.filter isalpha s).

Definition uppercase_count `{UnicodeData} (s : str) : nat :=
  length (List.filter (fun c => isalpha c && isupper c) s).

(** The four warnings, in the order the specification lists them, each
    emitted when its sub-score is strictly above its threshold. *)
Definition warnings (w1 w2 w3 w4 : str) (sensational punctuation caps length : Q)
  : list str :=
  (if Qlt_le_dec 0.5 sensational then [w1] else []) ++
  (if Qlt_le_dec 0.6 punctuation then [w2] else []) ++
  (if Qlt_le_dec 0.6 caps then [w3] else []) ++
  (if Qlt_le_dec 0.7 length then [w4] else []).

(** Clamping to the unit interval. *)
Definition clamp01 (x : Q) : Q := Qmax 0 (Qmin 1 x).

Definition in_unit (x : Q) : Prop := (0 <= x /\ x <= 1)%Q.

End Spec.

(** ** Python regular expressions

    The fragment of [re] that [app.py] uses: literals, one character of a
    class, a greedy repetition [p+] of a class, sequence and alternation.
    In a [str] pattern [\s] is the class [isspace] and [\S] its complement. *)

Module Re.
Import PyStr.

Inductive regex :=
| Lit (s : str)
| Cls (p : char -> bool)
| Plus (p : char -> bool)
| Seq (r1 r2 : regex)
| Alt (r1 r2 : regex).

(** [p+] against [s], then the rest of the pattern [k] against what is left:
    the repetition first takes as many characters as it can and gives them
    back one by one while [k] fails. *)
Fixpoint plus_match (p : char -> bool) (s : str) (k : str -> option str)
  : option str :=
  match s with
  | [] => None
  | c :: s' =>
      if p c then
        match plus_match p s' k with
        | Some rest => Some rest
        | None => k s'
        end
      else None
  end.

(** The backtracking matcher: [rmatch r s k] matches [r] at the head of [s]
    and hands the text after the match to [k]; alternatives are tried from
    left to right.  The result is the text left after the whole match. *)
Fixpoint rmatch (r : regex) (s : str) (k : str -> option str) : option str :=
  match r with
  | Lit l => if startswith l s then k (drop (length l) s) else None
  | Cls p =>
      match s with
      | c :: s' => if p c then k s' else None
      | [] => None
      end
  | Plus p => plus_match p s k
  | Seq r1 r2 => rmatch r1 s (fun s' => rmatch r2 s' k)
  | Alt r1 r2 =>
      match rmatch r1 s k with
      | Some rest => Some rest
      | None => rmatch r2 s k
      end
  end.

(** The match of [r] starting at the head of [s], as the text after it. *)
Definition match_at (r : regex) (s : str) : option str := rmatch r s Some.

(** [re.sub(r, repl, s)] for a pattern that does not match the empty string:
    the leftmost match is replaced and the search resumes after it.  [skip]
    is the number of characters of the last match still to be passed over. *)
Fixpoint sub_from (r : regex) (repl : str) (skip : nat) (s : str) : str :=
  match s with
  | [] => []
  | c :: s' =>
      match skip with
      | S j => sub_from r repl j s'
      | O =>
          match match_at r s with
          | Some rest =>
              repl ++ sub_from r repl (length s - length rest - 1) s'
          | None => c :: sub_from r repl 0 s'
          end
      end
  end.

Definition sub (r : regex) (repl : str) (s : str) : str := sub_from r repl 0 s.

End Re.

(** ** [app.py]: preprocessing and the [/analyze] route *)

Module AppText.
Import PyStr Py Re.

Section Preprocess.
Context `{UnicodeData}.

Definition nonspace (c : char) : bool := negb (isspace c).

(** [http\S+|www\S+|https\S+] *)
Definition url_pattern : regex :=
  Alt (Seq (Lit (lit "http")) (Plus nonspace))
      (Alt (Seq (Lit (lit "www")) (Plus nonspace))
           (Seq (Lit (lit "https")) (Plus nonspace))).

(** [\S+@\S+] *)
Definition email_pattern : regex :=
  Seq (Plus nonspace) (Seq (Lit (lit "@")) (Plus nonspace)).

(** The class [a-zA-Z\s\.\,\!\?]. *)
Definition kept (c : char) : bool :=
  ascii_islower c || ascii_isupper c || isspace c
  || (c =? chr ".")%N || (c =? chr ",")%N || (c =? chr "!")%N
  || (c =? chr "?")%N.

(** [[^a-zA-Z\s\.\,\!\?]] *)
Definition other_pattern : regex := Cls (fun c => negb (kept c)).

(** [\s+] *)
Definition spaces_pattern : regex := Plus isspace.

Definition preprocess_text (text : str) : str :=
  match text with
  | [] => []
  | _ =>
      let text := lower text in
      let text := sub url_pattern [] text in
      let text := sub email_pattern [] text in
      let text := sub other_pattern [] text in
      let text := strip (sub spaces_pattern (lit " ") text) in
      text
  end.

End Preprocess.
End AppText.

Module Routes.
Import PyStr Py.

(** A value of the JSON payload: a string, or anything else (a number, a
    boolean, null, a list, an object), on which [.strip()] raises. *)
Inductive json :=
| JString (s : str)
| JOther.

(** What the route returns: [jsonify(body), status], or the answer of the
    [except Exception] handler, status 500 with the text of the exception
    (not modelled). *)
Inductive response :=
| Response (body : gmap string value) (status : nat)
| ServerError.

(** [data.get(key, '').strip()]; [None] when it raises. *)
Definition get_stripped (data : gmap string json) (key : string) : option str :=
  match data !! key with
  | None => Some (strip [])
  | Some (JString s) => Some (strip s)
  | Some JOther => None
  end.

Section Analyze.
Context `{UnicodeData}.

(** As in [App]: the vectorizer with [model.predict_proba], and
    [metadata['model_name']]. *)
Variable predict_proba : str -> Q * Q.
Variable model_name : str.

(** The route [/analyze].  [data] is [request.get_json()]: [None] when the
    payload is not a JSON object, in which case [get_json] or [data.get]
    raises. *)
Definition analyze (data : option (gmap string json)) : response :=
  match data with
  | None => ServerError
  | Some data =>
      match get_stripped data "headline" with
      | None => ServerError
      | Some headline =>
          match get_stripped data "body" with
          | None => ServerError
          | Some body =>
              match headline with
              | [] =>
                  Response
                    {[ "error"%string := VStr (lit "Headline is required") ]} 400
              | _ =>
                  let result :=
                    App.predict_news AppText.preprocess_text predict_proba
                      model_name headline body in
                  match result !! "error"%string with
                  | Some _ => Response result 400
                  | None => Response result 200
                  end
              end
          end
      end
  end.

End Analyze.
End Routes.

(** ** Derived notions used to state further properties *)

Module Derived.
Import PyStr Py.

(** Every run of whitespace replaced by one space.  [prev_space] tells
    whether the character before [s] is whitespace. *)
Fixpoint collapse (prev_space : bool) (s : str) : str :=
  match s with
  | [] => []
  | c :: s' =>
      if isspace c
      then if prev_space then collapse true s' else chr " " :: collapse true s'
      else c :: collapse false s'
  end.

(** No two adjacent whitespace characters. *)
Fixpoint single_spaced (s : str) : bool :=
  match s with
  | [] => true
  | c :: s' =>
      match s' with
      | d :: _ => negb (isspace c && isspace d) && single_spaced s'
      | [] => true
      end
  end.

(** The characters that survive preprocessing: ASCII letters, the space and
    the four marks [. , ! ?]. *)
Definition plain (c : char) : bool :=
  ascii_islower c || ascii_isupper c || (c =? chr " ")%N
  || (c =? chr ".")%N || (c =? chr ",")%N || (c =? chr "!")%N
  || (c =? chr "?")%N.

(** The form of the text handed to the classifier. *)
Definition normalised (t : str) : Prop :=
  forallb plain t = true
  /\ single_spaced t = true
  /\ (forall c, head t = Some c -> isspace c = false)
  /\ (forall c, last t = Some c -> isspace c = false).

(** The weighted sum of punctuation anomalies, before the division by 5. *)
Definition anomalies (text : str) : Q :=
  (Qnat (Spec.exclaim_count text) / 3 + Qnat (Spec.question_count text) / 3
   + Qnat (Spec.interrobang_count text) * 2
   + Qnat (Spec.ellipsis_run_count text) * 1.5
   + Qnat (Spec.multi_exclaim_run_count text) * 3)%Q.

(** The four warnings of [_generate_flags]. *)
Definition sensational_flag : str :=
  TextAnalyzer.warning_sign ++ lit " Sensationalist language detected".
Definition punctuation_flag : str :=
  TextAnalyzer.warning_sign ++ lit " Excessive punctuation".
Definition caps_flag : str :=
  TextAnalyzer.warning_sign ++ lit " Excessive capitalization (shouting)".
Definition short_flag : str :=
  TextAnalyzer.warning_sign ++ lit " Suspiciously short content".

End Derived.

(** ** Tactics *)

(** Case analysis on every [Qmin] and [Qmax] in sight, then linear
    arithmetic. *)
Ltac minmax_lra :=
  repeat match goal with
    | |- context [Qmin ?a ?b] =>
        let E := fresh "E" in
        destruct (Q.min_spec a b) as [[? E] | [? E]];
        revert E; generalize (Qmin a b); intros ? E
    | |- context [Qmax ?a ?b] =>
        let E := fresh "E" in
        destruct (Q.max_spec a b) as [[? E] | [? E]];
        revert E; generalize (Qmax a b); intros ? E
    end;
  lra.

(** Division by a numeric constant, as multiplication by its inverse. *)
Ltac div_consts :=
  unfold Qdiv in *;
  repeat match goal with
    | |- context [Qinv (Qmake ?a ?b)] =>
        let v := eval vm_compute in (Qinv (Qmake a b)) in
        change (Qinv (Qmake a b)) with v
    | H : context [Qinv (Qmake ?a ?b)] |- _ =>
        let v := eval vm_compute in (Qinv (Qmake a b)) in
        change (Qinv (Qmake a b)) with v in H
    end.

Ltac score_lra := div_consts; minmax_lra.

(** Looking a literal key up in a dictionary built from a list of items. *)
Ltac dict_lookup :=
  cbn [list_to_map foldr fst snd];
  repeat (rewrite lookup_insert_ne by done);
  rewrite ?lookup_insert_eq.

(** * Properties *)

(** ** Strings *)

Section StringFacts.
Import PyStr Spec.

Lemma lstrip_decompose (s : str) :
  exists l, s = l ++ lstrip s /\ forallb isspace l = true.
Proof.
  induction s as [|c s [l [Hs Hl]]]; simpl.
  - exists []; auto.
  - destruct (isspace c) eqn:Hc.
    + exists (c :: l); simpl. rewrite Hc, Hl. split; [congruence | reflexivity].
    + exists []; auto.
Qed.

Lemma lstrip_head (s : str) (c : char) :
  head (lstrip s) = Some c -> isspace c = false.
Proof.
  induction s as [|a s IH]; simpl; [discriminate|].
  destruct (isspace a) eqn:Ha; [exact IH|].
  simpl; intros [= <-]; exact Ha.
Qed.

Lemma lstrip_app (s r : str) :
  lstrip (s ++ r) = match lstrip s with [] => lstrip r | _ => lstrip s ++ r end.
Proof.
  induction s as [|a s IH]; simpl; [reflexivity|].
  destruct (isspace a); [exact IH | reflexivity].
Qed.

Lemma lstrip_spaces (l : str) : forallb isspace l = true -> lstrip l = [].
Proof.
  induction l as [|a l IH]; simpl; [reflexivity|].
  destruct (isspace a); [exact IH | discriminate].
Qed.

Lemma lstrip_pad (l s : str) :
  forallb isspace l = true -> lstrip (l ++ s) = lstrip s.
Proof. intros Hl. rewrite lstrip_app, (lstrip_spaces l Hl). reflexivity. Qed.

Lemma lstrip_fixed (s : str) :
  (forall c, head s = Some c -> isspace c = false) -> lstrip s = s.
Proof.
  destruct s as [|a s]; simpl; [reflexivity|].
  intros Hh. rewrite (Hh a eq_refl). reflexivity.
Qed.

Lemma forallb_isspace_rev (l : str) :
  forallb isspace l = true -> forallb isspace (rev l) = true.
Proof.
  rewrite !forallb_forall. intros Hl c Hc. apply Hl, in_rev, Hc.
Qed.

Lemma head_rev_last (s : str) : head (rev s) = last s.
Proof.
  induction s as [|a s IH] using rev_ind; [reflexivity|].
  rewrite rev_unit, last_snoc. reflexivity.
Qed.

Lemma strip_decompose (s : str) :
  exists l r, s = l ++ strip s ++ r
              /\ forallb isspace l = true /\ forallb isspace r = true.
Proof.
  destruct (lstrip_decompose s) as [l [Hs Hl]].
  destruct (lstrip_decompose (rev (lstrip s))) as [r [Hr Hrs]].
  exists l, (rev r). repeat split; [|exact Hl|apply forallb_isspace_rev, Hrs].
  unfold strip, rstrip. rewrite <- rev_app_distr, <- Hr, rev_involutive.
  exact Hs.
Qed.

Lemma strip_last (s : str) (c : char) :
  last (strip s) = Some c -> isspace c = false.
Proof.
  unfold strip, rstrip. rewrite <- head_rev_last, rev_involutive.
  apply lstrip_head.
Qed.

Lemma strip_head (s : str) (c : char) :
  head (strip s) = Some c -> isspace c = false.
Proof.
  unfold strip, rstrip.
  destruct (lstrip_decompose (rev (lstrip s))) as [r [Hr _]].
  apply (f_equal (@rev char)) in Hr. rewrite rev_involutive, rev_app_distr in Hr.
  intros Hc. apply (lstrip_head s). rewrite Hr.
  destruct (rev (lstrip (rev (lstrip s)))); [discriminate | exact Hc].
Qed.

Lemma strip_trimmed (s : str) : trimmed_of s (strip s).
Proof.
  split; [apply strip_decompose|].
  split; [apply strip_head | apply strip_last].
Qed.

Lemma strip_fixed (t : str) :
  (forall c, head t = Some c -> isspace c = false) ->
  (forall c, last t = Some c -> isspace c = false) ->
  strip t = t.
Proof.
  intros Hh Hl. unfold strip, rstrip. rewrite (lstrip_fixed t Hh).
  rewrite lstrip_fixed, rev_involutive; [reflexivity|].
  intros c. rewrite head_rev_last. apply Hl.
Qed.

Lemma strip_spaces (l : str) : forallb isspace l = true -> strip l = [].
Proof. intros Hl. unfold strip. rewrite (lstrip_spaces l Hl). reflexivity. Qed.

Lemma strip_pad (l s r : str) :
  forallb isspace l = true -> forallb isspace r = true ->
  strip (l ++ s ++ r) = strip s.
Proof.
  intros Hl Hr. unfold strip. rewrite (lstrip_pad l _ Hl), lstrip_app.
  destruct (lstrip s) as [|a m] eqn:Hs.
  - rewrite (lstrip_spaces r Hr). reflexivity.
  - unfold rstrip. rewrite rev_app_distr, lstrip_pad by (apply forallb_isspace_rev, Hr).
    reflexivity.
Qed.

Lemma trimmed_of_unique (s t : str) : trimmed_of s t -> t = strip s.
Proof.
  intros [[l [r [Hs [Hl Hr]]]] [Hh Hlast]].
  rewrite Hs, (strip_pad l t r Hl Hr), (strip_fixed t Hh Hlast). reflexivity.
Qed.

Lemma strip_nil_spaces (s : str) : strip s = [] -> forallb isspace s = true.
Proof.
  intros Hs. destruct (strip_decompose s) as [l [r [E [Hl Hr]]]].
  rewrite Hs in E. rewrite E. simpl. rewrite forallb_app, Hl, Hr. reflexivity.
Qed.

Lemma startswith_prefix (p s : str) :
  startswith p s = true <-> exists r, s = p ++ r.
Proof.
  revert s; induction p as [|a p IH]; intros s; simpl.
  - split; [intros _; exists s; reflexivity | reflexivity].
  - destruct s as [|b s]; [split; [discriminate | intros [r [=]]]|].
    rewrite andb_true_iff, N.eqb_eq, IH. split.
    + intros [-> [r ->]]. exists r; reflexivity.
    + intros [r [= -> ->]]. split; [reflexivity | exists r; reflexivity].
Qed.

Lemma contains_substring (w s : str) :
  contains w s = true <-> substring w s.
Proof.
  unfold substring. induction s as [|b s IH]; simpl.
  - rewrite orb_false_r, startswith_prefix. split.
    + intros [r Hr]. exists [], r. exact Hr.
    + intros [l [r Hr]]. destruct l; [exists r; exact Hr | discriminate].
  - rewrite orb_true_iff, startswith_prefix, IH. split.
    + intros [[r Hr] | [l [r Hr]]].
      * exists [], r. exact Hr.
      * exists (b :: l), r. rewrite Hr. reflexivity.
    + intros [[|a l] [r Hr]].
      * left. exists r. exact Hr.
      * right. exists l, r. injection Hr as _ Hr. exact Hr.
Qed.

End StringFacts.

(** ** Counting: [count], [findall] and [split] against the quantities of
    the specification *)

Section CountingFacts.
Import PyStr Spec.

Lemma count_char (c : char) (s : str) : count [c] s = occurrences c s.
Proof.
  unfold count, occurrences. induction s as [|x s IH]; [reflexivity|].
  cbn [count_from startswith List.filter length Nat.sub].
  rewrite andb_true_r. destruct (N.eqb c x); simpl; rewrite IH; reflexivity.
Qed.

(** After an occurrence of [a b] the scan stands on [b], where no new
    occurrence can begin when [a <> b]. *)
Lemma count_from_pair (a b : char) (s : str) :
  a <> b ->
  count_from [a; b] 0 s = pair_occurrences a b s
  /\ (head s = Some b -> count_from [a; b] 1 s = pair_occurrences a b s).
Proof.
  intros Hab. induction s as [|x s [IH0 IH1]]; [split; reflexivity|].
  split.
  - cbn [count_from startswith pair_occurrences length Nat.sub].
    destruct s as [|y s]; [rewrite andb_false_r; reflexivity|].
    rewrite andb_true_r, (N.eqb_sym a x), (N.eqb_sym b y).
    destruct (N.eqb x a && N.eqb y b) eqn:Hxy.
    + apply andb_true_iff in Hxy as [_ Hy]. apply N.eqb_eq in Hy. subst y.
      rewrite IH1 by reflexivity. reflexivity.
    + rewrite IH0. reflexivity.
  - intros [= ->]. cbn [count_from pair_occurrences]. rewrite IH0.
    destruct s as [|y s]; [reflexivity|].
    assert (N.eqb b a = false) as -> by (apply N.eqb_neq; congruence).
    reflexivity.
Qed.

Lemma count_pair (a b : char) (s : str) :
  a <> b -> count [a; b] s = pair_occurrences a b s.
Proof. intros Hab. apply (count_from_pair a b s Hab). Qed.

Lemma startswith_replicate (c : char) (k : nat) (s : str) :
  startswith (replicate k c) s = (k <=? run_length c s)%nat.
Proof.
  revert s; induction k as [|k IH]; intros s; [reflexivity|].
  destruct s as [|x s]; [reflexivity|]. simpl.
  rewrite (N.eqb_sym c x). destruct (N.eqb x c); [apply IH | reflexivity].
Qed.

(** The scan of [findall_from] is either between matches ([skip = 0]) or
    inside the run it has just matched, which it leaves exactly when the
    run ends. *)
Lemma findall_from_run_starts (c : char) (k : nat) (s : str) :
  (1 <= k)%nat ->
  forall (skip : nat) (prev : bool),
    (if prev
     then skip = run_length c s \/ (skip = 0 /\ run_length c s < k)%nat
     else skip = 0%nat) ->
    length (findall_from c k skip s) = run_starts c k prev s.
Proof.
  intros Hk. induction s as [|x s IH]; intros skip prev Hinv; [reflexivity|].
  cbn [findall_from run_starts]. rewrite startswith_replicate.
  cbn [run_length] in *.
  destruct prev; cbn [negb andb].
  - destruct (N.eqb x c) eqn:Hx.
    + destruct Hinv as [-> | [-> Hlt]].
      * apply IH. left. reflexivity.
      * destruct (Nat.leb_spec k (S (run_length c s))) as [Hle|_]; [lia|].
        apply IH. right. split; [reflexivity | lia].
    + assert (skip = 0%nat) as -> by (destruct Hinv as [-> | [-> _]]; reflexivity).
      destruct (Nat.leb_spec k 0) as [Hle|_]; [lia|].
      apply IH. reflexivity.
  - subst skip. destruct (N.eqb x c) eqn:Hx.
    + destruct (Nat.leb_spec k (S (run_length c s))) as [Hle|Hlt].
      * cbn [length]. f_equal. apply IH. left. lia.
      * apply IH. right. split; [reflexivity | lia].
    + destruct (Nat.leb_spec k 0) as [Hle|_]; [lia|].
      apply IH. reflexivity.
Qed.

Lemma findall_rep_runs (c : char) (k : nat) (s : str) :
  (1 <= k)%nat -> length (findall_rep c k s) = runs_at_least c k s.
Proof.
  intros Hk. apply (findall_from_run_starts c k s Hk 0 false). reflexivity.
Qed.

(** A run alone, and texts joined by a character other than [c]. *)
Lemma runs_at_least_replicate (c : char) (k n : nat) :
  (1 <= k)%nat ->
  runs_at_least c k (replicate n c) = if (k <=? n)%nat then 1%nat else 0%nat.
Proof.
  intros Hk. unfold runs_at_least.
  assert (Hin : forall m, run_starts c k true (replicate m c) = 0%nat).
  { induction m as [|m IH]; [reflexivity|]. simpl. rewrite N.eqb_refl. exact IH. }
  destruct n as [|n].
  - simpl. destruct (Nat.leb_spec k 0); [lia | reflexivity].
  - cbn [replicate run_starts negb andb]. rewrite N.eqb_refl, Hin.
    rewrite startswith_replicate. cbn [run_length]. rewrite N.eqb_refl.
    assert (run_length c (replicate n c) = n) as ->.
    { clear. induction n as [|n IH]; simpl; [|rewrite N.eqb_refl, IH]; reflexivity. }
    destruct (k <=? S n)%nat; reflexivity.
Qed.

Lemma split_from_token_starts (cur s : str) :
  length (split_from cur s)
  = ((match cur with [] => 0 | _ => 1 end)
     + token_starts (match cur with [] => true | _ => false end) s)%nat.
Proof.
  revert cur; induction s as [|c s IH]; intros cur.
  - destruct cur; reflexivity.
  - cbn [split_from token_starts]. destruct (isspace c) eqn:Hc.
    + destruct cur; cbn [length andb negb]; rewrite IH; simpl; lia.
    + rewrite IH. destruct cur; simpl; lia.
Qed.

Lemma split_word_count (s : str) : length (split s) = word_count s.
Proof. apply (split_from_token_starts [] s). Qed.

Lemma split_nonempty (s : str) : strip s <> [] -> (1 <= length (split s))%nat.
Proof.
  intros Hs. rewrite split_word_count. unfold word_count.
  assert (Hsp : forallb isspace s <> true).
  { intros Hall. apply Hs, strip_spaces, Hall. }
  clear Hs. induction s as [|c s IH]; [exfalso; apply Hsp; reflexivity|].
  cbn [token_starts forallb] in *. destruct (isspace c); simpl in *; [|lia].
  specialize (IH Hsp). lia.
Qed.

End CountingFacts.

(** ** Numbers *)

Section NumberFacts.
Import Py Spec.
Local Open Scope Q_scope.

Lemma gt_true (a b : Q) : gt a b = true <-> b < a.
Proof.
  unfold gt. rewrite negb_true_iff, <- not_true_iff_false, Qle_bool_iff.
  split; [apply Qnot_le_lt | apply Qlt_not_le].
Qed.

Lemma gt_false (a b : Q) : gt a b = false <-> a <= b.
Proof. unfold gt. rewrite negb_false_iff. apply Qle_bool_iff. Qed.

Lemma Qnat_nonneg (n : nat) : 0 <= Qnat n.
Proof.
  unfold Qnat. change 0 with (inject_Z 0). rewrite <- Zle_Qle. lia.
Qed.

Lemma Qnat_le (n m : nat) : (n <= m)%nat -> Qnat n <= Qnat m.
Proof. intros Hnm. unfold Qnat. rewrite <- Zle_Qle. lia. Qed.

Lemma Qnat_lt (n m : nat) : (n < m)%nat -> Qnat n < Qnat m.
Proof. intros Hnm. unfold Qnat. rewrite <- Zlt_Qlt. lia. Qed.

Lemma ratio_unit (u l : nat) :
  (u <= l)%nat -> (0 < l)%nat -> in_unit (Qnat u / Qnat l).
Proof.
  intros Hul Hl. pose proof (Qnat_nonneg u) as Hu.
  pose proof (Qnat_le u l Hul) as Hle.
  assert (Hpos : 0 < Qnat l) by (apply (Qnat_lt 0 l Hl)).
  split.
  - apply Qle_shift_div_l; [exact Hpos | lra].
  - apply Qle_shift_div_r; [exact Hpos | lra].
Qed.

Lemma min_one_unit (x : Q) : 0 <= x -> in_unit (Qmin x 1.0).
Proof.
  intros Hx. split; minmax_lra.
Qed.

Lemma clamp01_unit (x : Q) : in_unit (clamp01 x).
Proof.
  unfold clamp01. split; minmax_lra.
Qed.

Lemma clamp01_id (x : Q) : in_unit x -> clamp01 x == x.
Proof.
  intros [H0 H1]. unfold clamp01. minmax_lra.
Qed.

Lemma round_half_even_bounds (a b : Z) (q : Q) :
  inject_Z a <= q -> q <= inject_Z b ->
  (a <= round_half_even q <= b)%Z.
Proof.
  intros Ha Hb. unfold round_half_even.
  pose proof (Qfloor_le q) as Hf.
  assert (Haf : (a <= Qfloor q)%Z).
  { rewrite <- (Qfloor_Z a). apply Qfloor_resp_le, Ha. }
  assert (Hfb : (Qfloor q <= b)%Z).
  { rewrite <- (Qfloor_Z b). apply Qfloor_resp_le, Hb. }
  assert (Hstep : 0 < q - inject_Z (Qfloor q) -> (Qfloor q + 1 <= b)%Z).
  { intros Hpos. assert (Hlt : inject_Z (Qfloor q) < inject_Z b) by lra.
    rewrite <- Zlt_Qlt in Hlt. lia. }
  destruct (Qcompare_spec (q - inject_Z (Qfloor q)) (1 # 2)) as [He|Hl|Hg].
  - destruct (Z.even (Qfloor q)); [lia|].
    split; [lia | apply Hstep; lra].
  - lia.
  - split; [lia | apply Hstep; lra].
Qed.

Lemma round_unit (x : Q) (ndigits : nat) : in_unit x -> in_unit (round x ndigits).
Proof.
  intros [H0 H1]. unfold round.
  set (z := (10 ^ Z.of_nat ndigits)%Z).
  assert (Hz : (0 < z)%Z) by (apply Z.pow_pos_nonneg; lia).
  assert (Hq : 0 < inject_Z z) by (change 0 with (inject_Z 0); rewrite <- Zlt_Qlt; exact Hz).
  destruct (round_half_even_bounds 0 z (x * inject_Z z)) as [Hlo Hhi].
  - change (inject_Z 0) with 0. apply Qmult_le_0_compat; lra.
  - rewrite <- (Qmult_1_l (inject_Z z)) at 2. apply Qmult_le_compat_r; lra.
  - rewrite Zle_Qle in Hlo, Hhi. change (inject_Z 0) with 0 in Hlo.
    split.
    + apply Qle_shift_div_l; [exact Hq | lra].
    + apply Qle_shift_div_r; [exact Hq | lra].
Qed.

End NumberFacts.

(** ** The sub-scores *)

Section SubScores.
Import PyStr Py Spec TextAnalyzer.
Context `{UnicodeData}.
Local Open Scope Q_scope.

Lemma filter_isupper_letters (s : str) :
  length (List.filter isupper (List.filter isalpha s)) = uppercase_count s.
Proof.
  unfold uppercase_count. induction s as [|c s IH]; [reflexivity|].
  simpl. destruct (isalpha c); simpl; [|exact IH].
  destruct (isupper c); simpl; rewrite IH; reflexivity.
Qed.

Lemma uppercase_le_alphabetic (s : str) :
  (uppercase_count s <= alphabetic_count s)%nat.
Proof.
  rewrite <- filter_isupper_letters. apply filter_length_le.
Qed.

(** The capitalization score in terms of the two counts. *)
Lemma check_capitalization_counts (text : str) :
  _check_capitalization text =
  match alphabetic_count text with
  | O => 0.0
  | _ =>
      let caps_ratio := Qnat (uppercase_count text) / Qnat (alphabetic_count text) in
      if gt caps_ratio 0.6 then 1.0
      else if gt caps_ratio 0.4 then 0.7
      else if gt caps_ratio 0.2 then 0.4
      else caps_ratio * 2
  end.
Proof.
  unfold _check_capitalization, alphabetic_count.
  rewrite filter_isupper_letters.
  destruct text as [|c text]; [reflexivity|].
  destruct (List.filter isalpha (c :: text)); reflexivity.
Qed.

Lemma keyword_count_le (words : list str) (t : str) :
  (keyword_count words t <= length words)%nat.
Proof. apply filter_length_le. Qed.

Lemma check_sensationalism_unit (text : str) :
  in_unit (_check_sensationalism text).
Proof.
  unfold _check_sensationalism.
  pose proof (Qnat_nonneg (keyword_count sensational_keywords (lower text))).
  apply min_one_unit. score_lra.
Qed.

Lemma check_emotional_content_unit (text : str) :
  in_unit (_check_emotional_content text).
Proof.
  unfold _check_emotional_content.
  pose proof (Qnat_nonneg (keyword_count emotional_words (lower text))).
  apply min_one_unit. score_lra.
Qed.

Lemma check_punctuation_unit (text : str) : in_unit (_check_punctuation text).
Proof.
  unfold _check_punctuation. apply min_one_unit.
  pose proof (Qnat_nonneg (count (lit "!") text)).
  pose proof (Qnat_nonneg (count (lit "?") text)).
  pose proof (Qnat_nonneg (count (lit "?!") text)).
  pose proof (Qnat_nonneg (length (findall_rep (chr ".") 3 text))).
  pose proof (Qnat_nonneg (length (findall_rep (chr "!") 2 text))).
  score_lra.
Qed.

Lemma check_capitalization_unit (text : str) :
  in_unit (_check_capitalization text).
Proof.
  rewrite check_capitalization_counts.
  destruct (alphabetic_count text) as [|n] eqn:Hn; [split; lra|].
  rewrite <- Hn. cbv zeta.
  destruct (ratio_unit (uppercase_count text) (alphabetic_count text)) as [H0 H1];
    [apply uppercase_le_alphabetic | lia |].
  set (r := Qnat (uppercase_count text) / Qnat (alphabetic_count text)) in *.
  destruct (gt r 0.6) eqn:G1; [split; lra|].
  destruct (gt r 0.4) eqn:G2; [split; lra|].
  destruct (gt r 0.2) eqn:G3; [split; lra|].
  apply gt_false in G3. split; lra.
Qed.

Lemma check_length_unit (text headline : str) :
  in_unit (_check_length text headline).
Proof.
  unfold _check_length.
  destruct (Nat.ltb_spec (length (split text)) 50) as [Hlt|_].
  - pose proof (Qnat_nonneg (length (split text))).
    pose proof (Qnat_lt _ _ Hlt) as Hq. change (Qnat 50) with 50 in Hq.
    split; score_lra.
  - destruct (length (split text) <? 100)%nat; split; lra.
Qed.

End SubScores.

(** ** [analyze] *)

Section AnalyzeFacts.
Import PyStr Py Spec TextAnalyzer.
Local Open Scope Q_scope.

Context `{UnicodeData}.

Lemma analyze_nonempty (headline body : str) :
  strip (concatenation headline body) <> [] ->
  analyze headline body =
  let text := strip (concatenation headline body) in
  let sensational_score := _check_sensationalism text in
  let punctuation_score := _check_punctuation text in
  let caps_score := _check_capitalization text in
  let length_score := _check_length text headline in
  let emotional_score := _check_emotional_content text in
  let risk_score :=
    Qmax 0.0 (Qmin 1.0
      (sensational_score * 0.30 + punctuation_score * 0.20 + caps_score * 0.20
       + length_score * 0.15 + emotional_score * 0.15)) in
  (risk_score,
   list_to_map
     [ ("sensational_score"%string, VFloat (round sensational_score 3));
       ("punctuation_score"%string, VFloat (round punctuation_score 3));
       ("caps_score"%string, VFloat (round caps_score 3));
       ("length_score"%string, VFloat (round length_score 3));
       ("emotional_score"%string, VFloat (round emotional_score 3));
       ("overall_risk"%string, VFloat (round risk_score 3));
       ("flags"%string,
         VList (_generate_flags sensational_score punctuation_score
                                caps_score length_score)) ]).
Proof.
  unfold analyze, concatenation. change (lit " ") with [chr " "].
  destruct (strip (headline ++ [chr " "] ++ body)); [congruence | reflexivity].
Qed.

Lemma analyze_empty_text (headline body : str) :
  strip (concatenation headline body) = [] ->
  analyze headline body = (0.0, {[ "error"%string := VStr (lit "Empty text") ]}).
Proof.
  unfold analyze, concatenation. change (lit " ") with [chr " "].
  intros ->. reflexivity.
Qed.

(** The analysis is a function of the combined text alone. *)
Lemma analyze_combined_text (headline body headline' body' : str) :
  strip (concatenation headline' body') = strip (concatenation headline body) ->
  analyze headline' body' = analyze headline body.
Proof.
  unfold analyze, concatenation. change (lit " ") with [chr " "].
  intros ->. reflexivity.
Qed.

Lemma weighted_sum_unit (s p c l e : Q) :
  in_unit s -> in_unit p -> in_unit c -> in_unit l -> in_unit e ->
  in_unit (s * 0.30 + p * 0.20 + c * 0.20 + l * 0.15 + e * 0.15).
Proof. unfold in_unit. intros [? ?] [? ?] [? ?] [? ?] [? ?]. split; lra. Qed.

Lemma analyze_score_unit (headline body : str) :
  in_unit (fst (analyze headline body)).
Proof.
  unfold analyze. destruct (strip (headline ++ lit " " ++ body)); cbn [fst].
  - split; lra.
  - split; minmax_lra.
Qed.

End AnalyzeFacts.

(** ** Which terms a keyword count counts *)

Section KeywordMatching.
Import PyStr Spec TextAnalyzer.

Lemma sensational_keywords_distinct : List.NoDup sensational_keywords.
Proof.
  apply NoDup_ListNoDup. refine (bool_decide_unpack _ _). vm_compute. exact I.
Qed.

Lemma emotional_words_distinct : List.NoDup emotional_words.
Proof.
  apply NoDup_ListNoDup. refine (bool_decide_unpack _ _). vm_compute. exact I.
Qed.

(** The count is the number of terms of the list that occur in the text:
    the size of a duplicate-free list holding exactly those terms. *)
Lemma keyword_count_matched (words : list str) (t : str) :
  List.NoDup words ->
  exists matched : list str,
    List.NoDup matched
    /\ (forall w : str, In w matched <-> In w words /\ substring w t)
    /\ keyword_count words t = length matched.
Proof.
  intros Hnd. exists (List.filter (fun word => contains word t) words).
  split; [apply List.NoDup_filter, Hnd|].
  split; [|reflexivity].
  intros w. rewrite filter_In, contains_substring. reflexivity.
Qed.

(** At least two terms are counted exactly when two different terms of the
    list occur in the text. *)
Lemma keyword_count_two (words : list str) (t : str) :
  List.NoDup words ->
  ((2 <= keyword_count words t)%nat
   <-> exists w1 w2 : str,
         w1 <> w2 /\ In w1 words /\ In w2 words
         /\ substring w1 t /\ substring w2 t).
Proof.
  intros Hnd. unfold keyword_count.
  pose proof (List.NoDup_filter (fun word => contains word t) Hnd) as Hm.
  assert (Hin : forall w : str,
             In w (List.filter (fun word => contains word t) words)
             <-> In w words /\ substring w t)
    by (intros w; rewrite filter_In, contains_substring; reflexivity).
  destruct (List.filter (fun word => contains word t) words) as [|x [|y m]].
  - split; [simpl; lia|]. intros (w1 & _ & _ & H1 & _ & S1 & _).
    destruct (proj2 (Hin w1) (conj H1 S1)).
  - split; [simpl; lia|]. intros (w1 & w2 & Hne & H1 & H2 & S1 & S2).
    destruct (proj2 (Hin w1) (conj H1 S1)) as [E1|[]].
    destruct (proj2 (Hin w2) (conj H2 S2)) as [E2|[]].
    congruence.
  - split; [|simpl; lia]. intros _. exists x, y.
    destruct (proj1 (Hin x) (or_introl eq_refl)) as [Hx Sx].
    destruct (proj1 (Hin y) (or_intror (or_introl eq_refl))) as [Hy Sy].
    repeat split; try assumption.
    intros ->. apply List.NoDup_cons_iff in Hm as [Hnot _].
    apply Hnot. left. reflexivity.
Qed.

End KeywordMatching.

(** * The claims of the specification *)

Import PyStr Py Spec TextAnalyzer.
Local Open Scope Q_scope.

(** C3. The capitalization sub-score is 0 when the text has no alphabetic
    character.  Otherwise, with ratio = upper-case alphabetic characters /
    alphabetic characters, it is 1 when ratio > 0.6, 0.7 when
    0.4 < ratio <= 0.6, 0.4 when 0.2 < ratio <= 0.4 and ratio * 2 when
    ratio <= 0.2; at ratio exactly 0.6 it is 0.7, because every breakpoint is
    compared with a strict greater-than. *)
Theorem capitalization_piecewise `{UnicodeData} (text : str) :
  let letters := alphabetic_count text in
  let ratio := Qnat (uppercase_count text) / Qnat letters in
  (letters = 0%nat -> _check_capitalization text == 0)
  /\ (letters <> 0%nat ->
      (0.6 < ratio -> _check_capitalization text == 1)
      /\ (0.4 < ratio /\ ratio <= 0.6 -> _check_capitalization text == 0.7)
      /\ (0.2 < ratio /\ ratio <= 0.4 -> _check_capitalization text == 0.4)
      /\ (ratio <= 0.2 -> _check_capitalization text == ratio * 2)
      /\ (ratio == 0.6 -> _check_capitalization text == 0.7)).
Proof.
  intros letters ratio. rewrite check_capitalization_counts. fold letters.
  split.
  - intros ->. reflexivity.
  - intros Hne. destruct letters as [|n] eqn:Hl; [congruence|].
    cbv zeta. fold ratio. clear Hne.
    destruct (gt ratio 0.6) eqn:G1;
      [apply gt_true in G1 | apply gt_false in G1;
       destruct (gt ratio 0.4) eqn:G2;
         [apply gt_true in G2 | apply gt_false in G2;
          destruct (gt ratio 0.2) eqn:G3;
            [apply gt_true in G3 | apply gt_false in G3]]];
      repeat split; intros; lra.
Qed.

Lemma capitalization_piecewise_witness :
  let letters := alphabetic_count (H := ascii_tables) in
  let ratio := fun t =>
    Qnat (uppercase_count (H := ascii_tables) t) / Qnat (letters t) in
  let score := _check_capitalization (H := ascii_tables) in
  (letters (lit "2024!") = 0%nat /\ score (lit "2024!") == 0)
  /\ (letters (lit "ABCd") <> 0%nat /\ 0.6 < ratio (lit "ABCd")
      /\ score (lit "ABCd") == 1)
  /\ (letters (lit "ABCde") <> 0%nat /\ ratio (lit "ABCde") == 0.6
      /\ score (lit "ABCde") == 0.7)
  /\ (letters (lit "AbCde") <> 0%nat
      /\ (0.2 < ratio (lit "AbCde") /\ ratio (lit "AbCde") <= 0.4)
      /\ score (lit "AbCde") == 0.4)
  /\ (letters (lit "Abcde") <> 0%nat /\ ratio (lit "Abcde") <= 0.2
      /\ score (lit "Abcde") == ratio (lit "Abcde") * 2).
Proof.
  intros letters ratio score.
  assert (H0 : letters (lit "2024!") = 0%nat) by reflexivity.
  assert (N1 : letters (lit "ABCd") <> 0%nat) by (vm_compute; discriminate).
  assert (R1 : 0.6 < ratio (lit "ABCd")) by (vm_compute; reflexivity).
  assert (N2 : letters (lit "ABCde") <> 0%nat) by (vm_compute; discriminate).
  assert (R2 : ratio (lit "ABCde") == 0.6) by (vm_compute; reflexivity).
  assert (N3 : letters (lit "AbCde") <> 0%nat) by (vm_compute; discriminate).
  assert (R3 : 0.2 < ratio (lit "AbCde") /\ ratio (lit "AbCde") <= 0.4)
    by (split; vm_compute; [reflexivity | discriminate]).
  assert (N4 : letters (lit "Abcde") <> 0%nat) by (vm_compute; discriminate).
  assert (R4 : ratio (lit "Abcde") <= 0.2) by (vm_compute; discriminate).
  pose proof (capitalization_piecewise (H := ascii_tables) (lit "2024!")) as P0.
  pose proof (capitalization_piecewise (H := ascii_tables) (lit "ABCd")) as P1.
  pose proof (capitalization_piecewise (H := ascii_tables) (lit "ABCde")) as P2.
  pose proof (capitalization_piecewise (H := ascii_tables) (lit "AbCde")) as P3.
  pose proof (capitalization_piecewise (H := ascii_tables) (lit "Abcde")) as P4.
  cbv zeta in P0, P1, P2, P3, P4.
  destruct P0 as [P0 _].
  destruct P1 as [_ P1]. destruct (P1 N1) as [B1 _].
  destruct P2 as [_ P2]. destruct (P2 N2) as [_ [_ [_ [_ B2]]]].
  destruct P3 as [_ P3]. destruct (P3 N3) as [_ [_ [B3 _]]].
  destruct P4 as [_ P4]. destruct (P4 N4) as [_ [_ [_ [B4 _]]]].
  split; [split; [exact H0 | exact (P0 H0)]|].
  split; [split; [exact N1 | split; [exact R1 | exact (B1 R1)]]|].
  split; [split; [exact N2 | split; [exact R2 | exact (B2 R2)]]|].
  split; [split; [exact N3 | split; [exact R3 | exact (B3 R3)]]|].
  split; [exact N4 | split; [exact R4 | exact (B4 R4)]].
Defined.

(** C4. With word_count the number of whitespace-delimited tokens of the
    text, the length sub-score is 1 - word_count/50 when word_count < 50,
    0.3 when 50 <= word_count < 100 (so exactly 50 words give 0.3) and 0
    when word_count >= 100; the headline argument has no effect. *)
Theorem length_brackets (text headline : str) :
  let words := word_count text in
  ((words < 50)%nat -> _check_length text headline == 1 - Qnat words / 50)
  /\ ((50 <= words < 100)%nat -> _check_length text headline == 0.3)
  /\ ((100 <= words)%nat -> _check_length text headline == 0)
  /\ (words = 50%nat -> _check_length text headline == 0.3)
  /\ (forall headline' : str,
        _check_length text headline' = _check_length text headline).
Proof.
  intros words. unfold _check_length. rewrite split_word_count. fold words.
  destruct (Nat.ltb_spec words 50) as [H50|H50];
    [|destruct (Nat.ltb_spec words 100) as [H100|H100]];
    repeat split; intros; try lia; try reflexivity; score_lra.
Qed.

Lemma length_brackets_witness :
  let words := fun n => concat (replicate n (lit "word ")) in
  ((word_count (words 3%nat) < 50)%nat
   /\ _check_length (words 3%nat) (lit "Title")
      == 1 - Qnat (word_count (words 3%nat)) / 50)
  /\ (word_count (words 50%nat) = 50%nat
      /\ _check_length (words 50%nat) (lit "Title") == 0.3)
  /\ ((50 <= word_count (words 99%nat) < 100)%nat
      /\ _check_length (words 99%nat) (lit "Title") == 0.3)
  /\ ((100 <= word_count (words 100%nat))%nat
      /\ _check_length (words 100%nat) (lit "Title") == 0).
Proof.
  intros words.
  assert (W3 : (word_count (words 3%nat) < 50)%nat) by (vm_compute; lia).
  assert (W50 : word_count (words 50%nat) = 50%nat) by (vm_compute; reflexivity).
  assert (W99 : (50 <= word_count (words 99%nat) < 100)%nat) by (vm_compute; lia).
  assert (W100 : (100 <= word_count (words 100%nat))%nat) by (vm_compute; lia).
  pose proof (length_brackets (words 3%nat) (lit "Title")) as P3.
  pose proof (length_brackets (words 50%nat) (lit "Title")) as P50.
  pose proof (length_brackets (words 99%nat) (lit "Title")) as P99.
  pose proof (length_brackets (words 100%nat) (lit "Title")) as P100.
  cbv zeta in P3, P50, P99, P100.
  destruct P3 as [B3 _]. destruct P50 as [_ [_ [_ [B50 _]]]].
  destruct P99 as [_ [B99 _]]. destruct P100 as [_ [_ [B100 _]]].
  split; [split; [exact W3 | exact (B3 W3)]|].
  split; [split; [exact W50 | exact (B50 W50)]|].
  split; [split; [exact W99 | exact (B99 W99)]|].
  split; [exact W100 | exact (B100 W100)].
Defined.

(** C5. The punctuation sub-score is
    min((exclaim_count/3 + question_count/3 + interrobang_count * 2
         + ellipsis_run_count * 1.5 + multi_exclaim_run_count * 3) / 5, 1),
    with the raw occurrences of '!' and of '?', the occurrences of the
    sequence '?!', the runs of three or more '.' and the runs of two or more
    '!'.  A mark is counted as a raw occurrence and again inside the
    multiplier terms: "!!" scores (2/3 + 3)/5 and "?!" scores
    (1/3 + 1/3 + 2)/5. *)
Theorem punctuation_formula (text : str) :
  _check_punctuation text ==
    Qmin ((Qnat (exclaim_count text) / 3
           + Qnat (question_count text) / 3
           + Qnat (interrobang_count text) * 2
           + Qnat (ellipsis_run_count text) * 1.5
           + Qnat (multi_exclaim_run_count text) * 3) / 5) 1
  /\ (exclaim_count (lit "!!") = 2%nat
      /\ multi_exclaim_run_count (lit "!!") = 1%nat
      /\ _check_punctuation (lit "!!") == (2 / 3 + 3) / 5)
  /\ (exclaim_count (lit "?!") = 1%nat
      /\ question_count (lit "?!") = 1%nat
      /\ interrobang_count (lit "?!") = 1%nat
      /\ _check_punctuation (lit "?!") == (1 / 3 + 1 / 3 + 2) / 5).
Proof.
  split; [|split; repeat split; vm_compute; reflexivity].
  unfold _check_punctuation, exclaim_count, question_count, interrobang_count,
    ellipsis_run_count, multi_exclaim_run_count.
  change (lit "!") with [chr "!"]. change (lit "?") with [chr "?"].
  change (lit "?!") with [chr "?"; chr "!"].
  rewrite !count_char, count_pair by (vm_compute; discriminate).
  rewrite !findall_rep_runs by lia.
  score_lra.
Qed.

(** C9. The sensational sub-score is min(count / 3, 1), where count is the
    number of the 20 sensational terms that occur as substrings of the
    lower-cased text (each term counted once, whatever the case of the text
    before lower-casing); a larger count never gives a smaller score, and
    the score is 1 once count >= 3. *)
Theorem sensationalism_monotone `{UnicodeData} (text text' : str) :
  let count := keyword_count sensational_keywords (lower text) in
  let count' := keyword_count sensational_keywords (lower text') in
  length sensational_keywords = 20%nat
  /\ (exists matched : list str,
        List.NoDup matched
        /\ (forall w : str,
              In w matched
              <-> In w sensational_keywords /\ substring w (lower text))
        /\ count = length matched)
  /\ (forall w : str,
        In w (List.filter (fun w => contains w (lower text)) sensational_keywords)
        <-> In w sensational_keywords /\ substring w (lower text))
  /\ _check_sensationalism text == Qmin (Qnat count / 3) 1
  /\ ((count <= count')%nat ->
      _check_sensationalism text <= _check_sensationalism text')
  /\ ((3 <= count)%nat -> _check_sensationalism text == 1).
Proof.
  intros count count'.
  split; [reflexivity|].
  split; [apply keyword_count_matched, sensational_keywords_distinct|].
  split; [intros w; rewrite filter_In, contains_substring; reflexivity|].
  unfold _check_sensationalism. fold count count'.
  split; [score_lra|].
  split.
  - intros Hle. apply Qnat_le in Hle. score_lra.
  - intros H3. apply Qnat_le in H3. change (Qnat 3) with 3 in H3. score_lra.
Qed.

Lemma sensationalism_monotone_witness :
  (keyword_count sensational_keywords
     (lower (UnicodeData := ascii_tables) (lit "Breaking news"))
   <= keyword_count sensational_keywords
        (lower (UnicodeData := ascii_tables) (lit "SHOCKING truth Exposed")))%nat
  /\ (3 <= keyword_count sensational_keywords
             (lower (UnicodeData := ascii_tables) (lit "SHOCKING truth Exposed")))%nat
  /\ _check_sensationalism (H := ascii_tables) (lit "Breaking news")
     <= _check_sensationalism (H := ascii_tables) (lit "SHOCKING truth Exposed")
  /\ _check_sensationalism (H := ascii_tables) (lit "SHOCKING truth Exposed") == 1.
Proof.
  assert (Hle : (keyword_count sensational_keywords
                   (lower (UnicodeData := ascii_tables) (lit "Breaking news"))
                 <= keyword_count sensational_keywords
                      (lower (UnicodeData := ascii_tables)
                         (lit "SHOCKING truth Exposed")))%nat)
    by (vm_compute; lia).
  assert (H3 : (3 <= keyword_count sensational_keywords
                       (lower (UnicodeData := ascii_tables)
                          (lit "SHOCKING truth Exposed")))%nat)
    by (vm_compute; lia).
  pose proof (sensationalism_monotone (H := ascii_tables)
                (lit "Breaking news") (lit "SHOCKING truth Exposed")) as P1.
  pose proof (sensationalism_monotone (H := ascii_tables)
                (lit "SHOCKING truth Exposed") (lit "SHOCKING truth Exposed"))
    as P2.
  cbv zeta in P1, P2.
  destruct P1 as (_ & _ & _ & _ & Hmono & _).
  destruct P2 as (_ & _ & _ & _ & _ & Hsat).
  split; [exact Hle | split; [exact H3 | split; [exact (Hmono Hle) | exact (Hsat H3)]]].
Defined.

(** C1. When the trimmed concatenation of headline and body is not empty,
    the risk score returned by [analyze] is
    sensational*0.30 + punctuation*0.20 + caps*0.20 + length*0.15
    + emotional*0.15 clamped to [0, 1] (the clamp changes nothing), and the
    risk score and the five sub-scores, as computed and as reported in the
    details, lie in [0, 1]. *)
Theorem analyze_risk_score `{UnicodeData} (headline body : str) :
  let text := strip (concatenation headline body) in
  let sensational := _check_sensationalism text in
  let punctuation := _check_punctuation text in
  let caps := _check_capitalization text in
  let brevity := _check_length text headline in
  let emotional := _check_emotional_content text in
  let combination :=
    sensational * 0.30 + punctuation * 0.20 + caps * 0.20
    + brevity * 0.15 + emotional * 0.15 in
  text <> [] ->
  fst (analyze headline body) == clamp01 combination
  /\ fst (analyze headline body) == combination
  /\ in_unit (fst (analyze headline body))
  /\ (in_unit sensational /\ in_unit punctuation /\ in_unit caps
      /\ in_unit brevity /\ in_unit emotional)
  /\ (forall key : string,
        In key [ "sensational_score"; "punctuation_score"; "caps_score";
                 "length_score"; "emotional_score"; "overall_risk" ]%string ->
        exists x : Q,
          snd (analyze headline body) !! key = Some (VFloat x) /\ in_unit x).
Proof.
  intros text sensational punctuation caps brevity emotional combination Hne.
  pose proof (check_sensationalism_unit text) as Hs.
  pose proof (check_punctuation_unit text) as Hp.
  pose proof (check_capitalization_unit text) as Hc.
  pose proof (check_length_unit text headline) as Hl.
  pose proof (check_emotional_content_unit text) as He.
  pose proof (weighted_sum_unit _ _ _ _ _ Hs Hp Hc Hl He) as Hsum.
  fold sensational punctuation caps brevity emotional combination in Hs, Hp, Hc, Hl, He, Hsum.
  rewrite (analyze_nonempty headline body Hne). cbv zeta.
  fold text sensational punctuation caps brevity emotional combination.
  cbn [fst snd].
  assert (Hrisk : in_unit (Qmax 0.0 (Qmin 1.0 combination))).
  { destruct Hsum. split; minmax_lra. }
  split; [unfold clamp01; destruct Hsum; minmax_lra|].
  split; [destruct Hsum; minmax_lra|].
  split; [exact Hrisk|].
  split; [auto|].
  intros key Hkey. simpl in Hkey.
  destruct Hkey as [<-|[<-|[<-|[<-|[<-|[<-|[]]]]]]];
    eexists; (split; [dict_lookup; reflexivity | apply round_unit; assumption]).
Qed.

Lemma analyze_risk_score_witness :
  strip (concatenation (lit "SHOCKING!!! THE TRUTH EXPOSED!!!")
                       (lit "You won't believe what happened!!!")) <> []
  /\ in_unit (fst (analyze (H := ascii_tables)
                     (lit "SHOCKING!!! THE TRUTH EXPOSED!!!")
                     (lit "You won't believe what happened!!!"))).
Proof.
  assert (Hne : strip (concatenation (lit "SHOCKING!!! THE TRUTH EXPOSED!!!")
                         (lit "You won't believe what happened!!!")) <> [])
    by (vm_compute; discriminate).
  split; [exact Hne|].
  apply (analyze_risk_score (H := ascii_tables)
           (lit "SHOCKING!!! THE TRUTH EXPOSED!!!")
           (lit "You won't believe what happened!!!") Hne).
Defined.

(** C2. When the trimmed concatenation of headline and body is empty (as
    for two empty strings), [analyze] returns a result whose details hold
    the error indicator and nothing else: no sub-score is computed, and
    nothing is raised. *)
Theorem analyze_empty_input `{UnicodeData} (headline body : str) :
  strip (concatenation headline body) = [] ->
  snd (analyze headline body) = {[ "error"%string := VStr (lit "Empty text") ]}
  /\ snd (analyze headline body) !! "error"%string = Some (VStr (lit "Empty text"))
  /\ (forall key : string,
        key <> "error"%string -> snd (analyze headline body) !! key = None).
Proof.
  intros Hempty. rewrite (analyze_empty_text headline body Hempty). cbn [snd].
  split; [reflexivity|].
  split; [apply lookup_singleton_eq|].
  intros key Hkey. apply lookup_singleton_ne. congruence.
Qed.

Lemma analyze_empty_input_witness :
  strip (concatenation [] []) = []
  /\ snd (analyze (H := ascii_tables) [] []) !! "error"%string
     = Some (VStr (lit "Empty text")).
Proof.
  assert (Hempty : strip (concatenation [] []) = []) by reflexivity.
  split; [exact Hempty|].
  apply (analyze_empty_input (H := ascii_tables) [] [] Hempty).
Defined.

(** C10. When the trimmed concatenation of headline and body is empty,
    the first component of the result of [analyze] is the number 0, next to
    the error indicator in the second.  0 is also the least score any
    analysis returns, and a successful analysis can return it, so the score
    alone does not tell the failure apart. *)
Theorem analyze_empty_score `{UnicodeData} (headline body : str) :
  strip (concatenation headline body) = [] ->
  fst (analyze headline body) == 0
  /\ is_Some (snd (analyze headline body) !! "error"%string)
  /\ (forall headline' body' : str, 0 <= fst (analyze headline' body'))
  /\ (strip (concatenation (concat (replicate 100 (lit "1 "))) []) <> []
      /\ fst (analyze (H := ascii_tables) (concat (replicate 100 (lit "1 "))) [])
         == 0
      /\ snd (analyze (H := ascii_tables) (concat (replicate 100 (lit "1 "))) [])
           !! "error"%string = None).
Proof.
  intros Hempty. rewrite (analyze_empty_text headline body Hempty). cbn [fst snd].
  split; [reflexivity|].
  split; [rewrite lookup_singleton_eq; eexists; reflexivity|].
  split; [intros headline' body'; apply analyze_score_unit|].
  assert (Hne : strip (concatenation (concat (replicate 100 (lit "1 "))) []) <> [])
    by (vm_compute; discriminate).
  split; [exact Hne|].
  split; [vm_compute; reflexivity|].
  rewrite (analyze_nonempty (H := ascii_tables) _ _ Hne). cbv zeta. cbn [snd].
  dict_lookup. reflexivity.
Qed.

Lemma analyze_empty_score_witness :
  strip (concatenation (lit "  ") (lit " ")) = []
  /\ fst (analyze (H := ascii_tables) (lit "  ") (lit " ")) == 0.
Proof.
  assert (Hempty : strip (concatenation (lit "  ") (lit " ")) = [])
    by reflexivity.
  split; [exact Hempty|].
  apply (analyze_empty_score (H := ascii_tables) (lit "  ") (lit " ") Hempty).
Defined.

(** C8. The text every sub-score is computed over is the concatenation of
    headline and body, joined by one space, with its leading and trailing
    whitespace removed.  The trimming is done by [analyze] itself: padding
    the inputs with whitespace does not change the result. *)
Theorem analysis_over_trimmed_text `{UnicodeData} (headline body : str) :
  let text := strip (concatenation headline body) in
  trimmed_of (concatenation headline body) text
  /\ (forall t : str, trimmed_of (concatenation headline body) t -> t = text)
  /\ (forall headline' body' : str,
        strip (concatenation headline' body') = text ->
        analyze headline' body' = analyze headline body)
  /\ (forall l r : str,
        forallb isspace l = true -> forallb isspace r = true ->
        analyze (l ++ headline) (body ++ r) = analyze headline body)
  /\ (text <> [] ->
      fst (analyze headline body)
      = Qmax 0.0 (Qmin 1.0
          (_check_sensationalism text * 0.30 + _check_punctuation text * 0.20
           + _check_capitalization text * 0.20
           + _check_length text headline * 0.15
           + _check_emotional_content text * 0.15))
      /\ snd (analyze headline body) !! "sensational_score"%string
         = Some (VFloat (round (_check_sensationalism text) 3))
      /\ snd (analyze headline body) !! "punctuation_score"%string
         = Some (VFloat (round (_check_punctuation text) 3))
      /\ snd (analyze headline body) !! "caps_score"%string
         = Some (VFloat (round (_check_capitalization text) 3))
      /\ snd (analyze headline body) !! "length_score"%string
         = Some (VFloat (round (_check_length text headline) 3))
      /\ snd (analyze headline body) !! "emotional_score"%string
         = Some (VFloat (round (_check_emotional_content text) 3))).
Proof.
  intros text.
  split; [apply strip_trimmed|].
  split; [intros t Ht; apply trimmed_of_unique, Ht|].
  split; [intros headline' body'; apply analyze_combined_text|].
  split.
  - intros l r Hl Hr. apply analyze_combined_text. unfold concatenation.
    replace ((l ++ headline) ++ [chr " "] ++ body ++ r)
      with (l ++ (headline ++ [chr " "] ++ body) ++ r)
      by (rewrite <- !app_assoc; reflexivity).
    apply strip_pad; assumption.
  - intros Hne. rewrite (analyze_nonempty headline body Hne). cbv zeta.
    fold text. cbn [fst snd].
    split; [reflexivity|].
    repeat split; dict_lookup; reflexivity.
Qed.

Lemma analysis_over_trimmed_text_witness :
  forallb isspace (lit "  ") = true
  /\ forallb isspace [10; 9]%N = true
  /\ analyze (H := ascii_tables) (lit "  " ++ lit "Breaking news")
       (lit "more at ten" ++ [10; 9]%N)
     = analyze (H := ascii_tables) (lit "Breaking news") (lit "more at ten").
Proof.
  assert (Hl : forallb isspace (lit "  ") = true) by reflexivity.
  assert (Hr : forallb isspace [10; 9]%N = true) by reflexivity.
  split; [exact Hl | split; [exact Hr|]].
  apply (analysis_over_trimmed_text (H := ascii_tables)
           (lit "Breaking news") (lit "more at ten")); assumption.
Defined.

(** The four warnings as the source spells them. *)
Lemma generate_flags_warnings (sensational punctuation caps brevity : Q) :
  _generate_flags sensational punctuation caps brevity =
  warnings (warning_sign ++ lit " Sensationalist language detected")
           (warning_sign ++ lit " Excessive punctuation")
           (warning_sign ++ lit " Excessive capitalization (shouting)")
           (warning_sign ++ lit " Suspiciously short content")
           sensational punctuation caps brevity.
Proof.
  unfold _generate_flags, warnings.
  destruct (gt sensational 0.5) eqn:G1, (Qlt_le_dec 0.5 sensational) as [L1|L1];
    try (apply gt_true in G1); try (apply gt_false in G1); try lra;
  destruct (gt punctuation 0.6) eqn:G2, (Qlt_le_dec 0.6 punctuation) as [L2|L2];
    try (apply gt_true in G2); try (apply gt_false in G2); try lra;
  destruct (gt caps 0.6) eqn:G3, (Qlt_le_dec 0.6 caps) as [L3|L3];
    try (apply gt_true in G3); try (apply gt_false in G3); try lra;
  destruct (gt brevity 0.7) eqn:G4, (Qlt_le_dec 0.7 brevity) as [L4|L4];
    try (apply gt_true in G4); try (apply gt_false in G4); try lra;
  reflexivity.
Qed.

(** C6, as stated, fails on the wording of the warnings: for the headline
    "SHOCKING TRUTH EXPOSED" the sensational sub-score is above 0.5, yet the
    string "sensationalist language detected" is not among the flags. *)
Lemma flags_wording_counterexample :
  exists flags : list str,
    snd (analyze (H := ascii_tables) (lit "SHOCKING TRUTH EXPOSED") [])
      !! "flags"%string = Some (VList flags)
    /\ 0.5 < _check_sensationalism (H := ascii_tables)
               (strip (concatenation (lit "SHOCKING TRUTH EXPOSED") []))
    /\ ~ In (lit "sensationalist language detected") flags.
Proof.
  assert (Hne : strip (concatenation (lit "SHOCKING TRUTH EXPOSED") []) <> [])
    by (vm_compute; discriminate).
  eexists. split; [|split].
  - rewrite (analyze_nonempty (H := ascii_tables) _ _ Hne). cbv zeta. cbn [snd].
    dict_lookup. reflexivity.
  - vm_compute. reflexivity.
  - intros Hin. vm_compute in Hin. intuition discriminate.
Qed.

(** C6, amended.  For every successful analysis the flags are the warnings
    whose threshold is strictly exceeded, each decided on its own and in this
    order: sensational > 0.5 gives U+26A0 U+FE0F " Sensationalist language
    detected", punctuation > 0.6 gives U+26A0 U+FE0F " Excessive punctuation",
    caps > 0.6 gives U+26A0 U+FE0F " Excessive capitalization (shouting)",
    length > 0.7 gives U+26A0 U+FE0F " Suspiciously short content"; sub-scores
    exactly at their thresholds give no flag. *)
Theorem generate_flags_thresholds `{UnicodeData} (headline body : str) :
  let text := strip (concatenation headline body) in
  let expected :=
    warnings (warning_sign ++ lit " Sensationalist language detected")
             (warning_sign ++ lit " Excessive punctuation")
             (warning_sign ++ lit " Excessive capitalization (shouting)")
             (warning_sign ++ lit " Suspiciously short content") in
  (forall sensational punctuation caps brevity : Q,
      _generate_flags sensational punctuation caps brevity
      = expected sensational punctuation caps brevity)
  /\ _generate_flags 0.5 0.6 0.6 0.7 = []
  /\ (text <> [] ->
      snd (analyze headline body) !! "flags"%string
      = Some (VList (expected (_check_sensationalism text)
                              (_check_punctuation text)
                              (_check_capitalization text)
                              (_check_length text headline)))).
Proof.
  intros text expected.
  split; [apply generate_flags_warnings|].
  split; [reflexivity|].
  intros Hne. rewrite (analyze_nonempty headline body Hne). cbv zeta.
  fold text. cbn [snd]. dict_lookup.
  rewrite generate_flags_warnings. reflexivity.
Qed.

Lemma generate_flags_thresholds_witness :
  strip (concatenation (lit "SHOCKING!!! THE TRUTH EXPOSED!!!")
                       (lit "You won't believe what happened!!!")) <> []
  /\ snd (analyze (H := ascii_tables)
            (lit "SHOCKING!!! THE TRUTH EXPOSED!!!")
            (lit "You won't believe what happened!!!")) !! "flags"%string
     = Some (VList
         [ warning_sign ++ lit " Sensationalist language detected";
           warning_sign ++ lit " Excessive punctuation";
           warning_sign ++ lit " Excessive capitalization (shouting)";
           warning_sign ++ lit " Suspiciously short content" ]).
Proof.
  assert (Hne : strip (concatenation (lit "SHOCKING!!! THE TRUTH EXPOSED!!!")
                         (lit "You won't believe what happened!!!")) <> [])
    by (vm_compute; discriminate).
  split; [exact Hne|].
  destruct (generate_flags_thresholds (H := ascii_tables)
              (lit "SHOCKING!!! THE TRUTH EXPOSED!!!")
              (lit "You won't believe what happened!!!")) as [_ [_ Hflags]].
  rewrite (Hflags Hne). vm_compute. reflexivity.
Defined.

Lemma get_verdict_cases (s : Q) :
  (0.7 < s -> get_verdict s = lit "HIGH RISK")
  /\ (0.4 < s /\ s <= 0.7 -> get_verdict s = lit "MODERATE RISK")
  /\ (s <= 0.4 -> get_verdict s = lit "LOW RISK").
Proof.
  unfold get_verdict.
  destruct (gt s 0.7) eqn:G1;
    [apply gt_true in G1 | apply gt_false in G1;
     destruct (gt s 0.4) eqn:G2; [apply gt_true in G2 | apply gt_false in G2]];
    repeat split; intros; first [reflexivity | lra].
Qed.

(** C7, as stated, fails on the reported confidence: with a classifier that
    gives probability 0.1 of fake, the headline "Council approves budget" has
    final <= 0.4, and the confidence in the result is not 1 - final. *)
Lemma confidence_counterexample :
  let final :=
    0.1 * 0.6
    + fst (analyze (H := ascii_tables) (lit "Council approves budget") []) * 0.4 in
  let result :=
    App.predict_news (H := ascii_tables) (fun s => s) (fun _ => (0.1, 0.9))
      (lit "model") (lit "Council approves budget") [] in
  final <= 0.4
  /\ exists c : Q,
       result !! "confidence"%string = Some (VFloat c) /\ ~ c == 1 - final.
Proof.
  split; [vm_compute; discriminate|].
  eexists. split; [vm_compute; reflexivity|].
  vm_compute. discriminate.
Qed.

(** C7, amended.  [get_verdict] returns "HIGH RISK" when s > 0.7,
    "MODERATE RISK" when 0.4 < s <= 0.7 and "LOW RISK" otherwise.
    [predict_news] maps final = classifier*0.6 + heuristic*0.4 through the
    same thresholds (its verdict is the one of [get_verdict], followed by
    " - " and an advice), and the confidence it reports is a percentage
    rounded to two decimals: round((1 - final) * 100, 2) exactly when
    final <= 0.4, and round(final * 100, 2) otherwise. *)
Theorem verdict_thresholds `{UnicodeData}
    (preprocess_text : str -> str) (predict_proba : str -> Q * Q)
    (model_name headline body : str) (s : Q) :
  let content := strip (concatenation headline body) in
  let final :=
    fst (predict_proba (preprocess_text content)) * 0.6
    + fst (analyze headline body) * 0.4 in
  let result :=
    App.predict_news preprocess_text predict_proba model_name headline body in
  ((0.7 < s -> get_verdict s = lit "HIGH RISK")
   /\ (0.4 < s /\ s <= 0.7 -> get_verdict s = lit "MODERATE RISK")
   /\ (s <= 0.4 -> get_verdict s = lit "LOW RISK"))
  /\ (content <> [] ->
      (exists advice : str,
          result !! "verdict"%string
          = Some (VStr (get_verdict final ++ lit " - " ++ advice)))
      /\ (final <= 0.4 ->
          result !! "confidence"%string
          = Some (VFloat (round ((1 - final) * 100) 2)))
      /\ (0.4 < final ->
          result !! "confidence"%string
          = Some (VFloat (round (final * 100) 2)))).
Proof.
  intros content final result.
  split; [apply get_verdict_cases|].
  intros Hne. subst result. unfold App.predict_news.
  change (lit " ") with [chr " "].
  change (headline ++ [chr " "] ++ body) with (concatenation headline body).
  fold content. destruct content as [|c0 content'] eqn:Hcontent; [congruence|].
  destruct (analyze headline body) as [heuristic_score heuristic_details].
  cbn [fst] in final. fold final. unfold get_verdict.
  destruct (gt final 0.7) eqn:G1;
    [apply gt_true in G1 | apply gt_false in G1;
     destruct (gt final 0.4) eqn:G2; [apply gt_true in G2 | apply gt_false in G2]].
  - split; [eexists; dict_lookup; reflexivity|].
    split; [intros; lra | intros _; dict_lookup; reflexivity].
  - split; [eexists; dict_lookup; reflexivity|].
    split; [intros; lra | intros _; dict_lookup; reflexivity].
  - split; [eexists; dict_lookup; reflexivity|].
    split; [intros _; dict_lookup; reflexivity | intros; lra].
Qed.

Lemma verdict_thresholds_witness :
  let final := fun (ml : Q) (headline : str) =>
    ml * 0.6 + fst (analyze (H := ascii_tables) headline []) * 0.4 in
  let confidence := fun (ml : Q) (headline : str) =>
    App.predict_news (H := ascii_tables) (fun s => s) (fun _ => (ml, 1 - ml))
      (lit "model") headline [] !! "confidence"%string in
  (strip (concatenation (lit "Council approves budget") []) <> []
   /\ final 0.1 (lit "Council approves budget") <= 0.4
   /\ confidence 0.1 (lit "Council approves budget")
      = Some (VFloat
          (round ((1 - final 0.1 (lit "Council approves budget")) * 100) 2)))
  /\ (strip (concatenation (lit "SHOCKING TRUTH EXPOSED!!!") []) <> []
      /\ 0.4 < final 0.9 (lit "SHOCKING TRUTH EXPOSED!!!")
      /\ confidence 0.9 (lit "SHOCKING TRUTH EXPOSED!!!")
         = Some (VFloat
             (round (final 0.9 (lit "SHOCKING TRUTH EXPOSED!!!") * 100) 2)))
  /\ (0.7 < 0.763 /\ get_verdict 0.763 = lit "HIGH RISK")
  /\ ((0.4 < 0.7 /\ 0.7 <= 0.7) /\ get_verdict 0.7 = lit "MODERATE RISK")
  /\ (0.4 <= 0.4 /\ get_verdict 0.4 = lit "LOW RISK").
Proof.
  intros final confidence.
  assert (N1 : strip (concatenation (lit "Council approves budget") []) <> [])
    by (vm_compute; discriminate).
  assert (L1 : final 0.1 (lit "Council approves budget") <= 0.4)
    by (vm_compute; discriminate).
  assert (N2 : strip (concatenation (lit "SHOCKING TRUTH EXPOSED!!!") []) <> [])
    by (vm_compute; discriminate).
  assert (L2 : 0.4 < final 0.9 (lit "SHOCKING TRUTH EXPOSED!!!"))
    by (vm_compute; reflexivity).
  assert (V1 : 0.7 < 0.763) by reflexivity.
  assert (V2 : 0.4 < 0.7 /\ 0.7 <= 0.7) by (split; [reflexivity | discriminate]).
  assert (V3 : 0.4 <= 0.4) by discriminate.
  pose proof (verdict_thresholds (H := ascii_tables) (fun s => s)
                (fun _ => (0.1, 1 - 0.1)) (lit "model")
                (lit "Council approves budget") [] 0.763) as P1.
  pose proof (verdict_thresholds (H := ascii_tables) (fun s => s)
                (fun _ => (0.9, 1 - 0.9)) (lit "model")
                (lit "SHOCKING TRUTH EXPOSED!!!") [] 0.7) as P2.
  pose proof (verdict_thresholds (H := ascii_tables) (fun s => s)
                (fun _ => (0.9, 1 - 0.9)) (lit "model")
                (lit "SHOCKING TRUTH EXPOSED!!!") [] 0.4) as P3.
  cbv zeta in P1, P2, P3.
  destruct P1 as [[B1 _] P1]. destruct (P1 N1) as [_ [C1 _]].
  destruct P2 as [[_ [B2 _]] P2]. destruct (P2 N2) as [_ [_ C2]].
  destruct P3 as [[_ [_ B3]] _].
  split; [split; [exact N1 | split; [exact L1 | exact (C1 L1)]]|].
  split; [split; [exact N2 | split; [exact L2 | exact (C2 L2)]]|].
  split; [split; [exact V1 | exact (B1 V1)]|].
  split; [split; [exact V2 | exact (B2 V2)]|].
  split; [exact V3 | exact (B3 V3)].
Defined.

(** * Further properties of the code *)

(** ** Counts and flags *)

Section CountBounds.
Import PyStr Spec.

Lemma occurrences_cons (c x : char) (s : str) :
  occurrences c (x :: s)
  = ((if (c =? x)%N then 1 else 0) + occurrences c s)%nat.
Proof. unfold occurrences. simpl. destruct (c =? x)%N; reflexivity. Qed.

Lemma pair_occurrences_le_first (a b : char) (s : str) :
  (pair_occurrences a b s <= occurrences a s)%nat.
Proof.
  induction s as [|x s IH]; [reflexivity|].
  rewrite occurrences_cons. cbn [pair_occurrences].
  destruct s as [|y s]; [simpl; lia|].
  rewrite (N.eqb_sym a x).
  destruct (x =? a)%N; cbn [andb]; [destruct (y =? b)%N|]; lia.
Qed.

Lemma pair_occurrences_le_tail (a b : char) (s : str) :
  (pair_occurrences a b s <= occurrences b (tail s))%nat.
Proof.
  induction s as [|x s IH]; [reflexivity|].
  cbn [pair_occurrences tail]. destruct s as [|y s]; [simpl; lia|].
  cbn [tail] in IH. rewrite occurrences_cons. rewrite (N.eqb_sym b y).
  destruct (x =? a)%N, (y =? b)%N; cbn [andb]; lia.
Qed.

Lemma pair_occurrences_le_second (a b : char) (s : str) :
  (pair_occurrences a b s <= occurrences b s)%nat.
Proof.
  pose proof (pair_occurrences_le_tail a b s) as Ht.
  destruct s as [|x s]; [exact Ht|].
  cbn [tail] in Ht. rewrite occurrences_cons. lia.
Qed.

Lemma startswith_replicate_occurrences (c : char) (k : nat) (s : str) :
  startswith (replicate k c) s = true -> (k <= occurrences c s)%nat.
Proof.
  revert s; induction k as [|k IH]; intros s; [intros _; lia|].
  destruct s as [|x s]; [discriminate|]. cbn [replicate startswith].
  rewrite occurrences_cons. intros Hs. apply andb_true_iff in Hs as [-> Hs].
  specialize (IH s Hs). lia.
Qed.

Lemma run_starts_occurrences (c : char) (k : nat) (prev : bool) (s : str) :
  (1 <= run_starts c k prev s)%nat -> (k <= occurrences c s)%nat.
Proof.
  revert prev; induction s as [|x s IH]; intros prev; [simpl; lia|].
  cbn [run_starts]. rewrite occurrences_cons.
  destruct (negb prev && startswith (replicate k c) (x :: s)) eqn:Hhere.
  - intros _. apply andb_true_iff in Hhere as [_ Hhere].
    apply startswith_replicate_occurrences in Hhere.
    rewrite occurrences_cons in Hhere. exact Hhere.
  - intros Hrest. specialize (IH (x =? c)%N ltac:(lia)). lia.
Qed.

Lemma startswith_replicate_cons (c : char) (k : nat) (s : str) :
  startswith (replicate k c) s = true ->
  startswith (replicate k c) (c :: s) = true.
Proof.
  rewrite !startswith_replicate. cbn [run_length]. rewrite N.eqb_refl.
  intros Hk. apply Nat.leb_le in Hk. apply Nat.leb_le. lia.
Qed.

(** A text that contains [k] copies of [c] in a row has a run of at least
    [k], and conversely. *)
Lemma contains_run_starts (c : char) (k : nat) (prev : bool) (s : str) :
  (1 <= k)%nat ->
  contains (replicate k c) s = true ->
  (1 <= run_starts c k prev s)%nat
  \/ (prev = true /\ startswith (replicate k c) s = true).
Proof.
  intros Hk. revert prev; induction s as [|x s IH]; intros prev.
  - destruct k; [lia | discriminate].
  - cbn [contains run_starts]. intros Hs.
    destruct (startswith (replicate k c) (x :: s)) eqn:Hhere.
    + destruct prev; [right; auto | left; simpl; lia].
    + cbn [orb] in Hs. rewrite andb_false_r. cbn [Nat.add].
      destruct (IH (x =? c)%N Hs) as [Hrun | [Hx Hs']]; [left; exact Hrun|].
      apply N.eqb_eq in Hx. subst x.
      apply startswith_replicate_cons in Hs'. congruence.
Qed.

Lemma run_starts_contains (c : char) (k : nat) (prev : bool) (s : str) :
  (1 <= run_starts c k prev s)%nat -> contains (replicate k c) s = true.
Proof.
  revert prev; induction s as [|x s IH]; intros prev; [simpl; lia|].
  cbn [run_starts contains].
  destruct (startswith (replicate k c) (x :: s)); [reflexivity|].
  rewrite andb_false_r. cbn [Nat.add orb]. apply IH.
Qed.

Lemma runs_at_least_contains (c : char) (k : nat) (s : str) :
  (1 <= k)%nat ->
  ((1 <= runs_at_least c k s)%nat <-> contains (replicate k c) s = true).
Proof.
  intros Hk. unfold runs_at_least. split; [apply run_starts_contains|].
  intros Hs. destruct (contains_run_starts c k false s Hk Hs) as [Hr | [Hf _]];
    [exact Hr | discriminate].
Qed.

Lemma occurrences_zero (c : char) (s : str) :
  occurrences c s = 0%nat <-> ~ In c s.
Proof.
  induction s as [|x s IH]; [simpl; tauto|].
  rewrite occurrences_cons. simpl.
  destruct (N.eqb_spec c x) as [->|Hne].
  - split; [lia | intros Hn; exfalso; apply Hn; left; reflexivity].
  - rewrite Nat.add_0_l, IH. split; [intros Hn [E|Hin]; [congruence | tauto] | tauto].
Qed.

End CountBounds.

Section FlagFacts.
Import PyStr Py Spec TextAnalyzer Derived.
Local Open Scope Q_scope.

Lemma in_warnings (w1 w2 w3 w4 : str) (s p c l : Q) :
  w1 <> w2 -> w1 <> w3 -> w1 <> w4 -> w2 <> w3 -> w2 <> w4 -> w3 <> w4 ->
  (In w1 (warnings w1 w2 w3 w4 s p c l) <-> 0.5 < s)
  /\ (In w2 (warnings w1 w2 w3 w4 s p c l) <-> 0.6 < p)
  /\ (In w3 (warnings w1 w2 w3 w4 s p c l) <-> 0.6 < c)
  /\ (In w4 (warnings w1 w2 w3 w4 s p c l) <-> 0.7 < l).
Proof.
  intros H12 H13 H14 H23 H24 H34. unfold warnings.
  destruct (Qlt_le_dec 0.5 s), (Qlt_le_dec 0.6 p), (Qlt_le_dec 0.6 c),
    (Qlt_le_dec 0.7 l); simpl;
    repeat split; intros; try assumption; try lra; intuition congruence.
Qed.

Lemma in_flags (s p c l : Q) :
  let flags :=
    warnings sensational_flag punctuation_flag caps_flag short_flag s p c l in
  (In sensational_flag flags <-> 0.5 < s)
  /\ (In punctuation_flag flags <-> 0.6 < p)
  /\ (In caps_flag flags <-> 0.6 < c)
  /\ (In short_flag flags <-> 0.7 < l).
Proof.
  apply in_warnings; intros E; vm_compute in E; discriminate.
Qed.

Context `{UnicodeData}.

Lemma analyze_flags (headline body : str) :
  let text := strip (concatenation headline body) in
  text <> [] ->
  snd (analyze headline body) !! "flags"%string
  = Some (VList (warnings sensational_flag punctuation_flag caps_flag short_flag
                   (_check_sensationalism text) (_check_punctuation text)
                   (_check_capitalization text) (_check_length text headline))).
Proof.
  intros text Hne. rewrite (analyze_nonempty headline body Hne). cbv zeta.
  fold text. cbn [snd]. dict_lookup. rewrite generate_flags_warnings.
  reflexivity.
Qed.

Lemma length_score_high (text headline : str) :
  0.7 < _check_length text headline <-> (word_count text < 15)%nat.
Proof.
  unfold _check_length. rewrite split_word_count.
  destruct (Nat.ltb_spec (word_count text) 50) as [H50|H50].
  - destruct (Nat.lt_ge_cases (word_count text) 15) as [Hlt|Hge].
    + pose proof (Qnat_lt _ _ Hlt) as Hq. change (Qnat 15) with 15 in Hq.
      split; [intros _; exact Hlt | intros _; div_consts; lra].
    + pose proof (Qnat_le _ _ Hge) as Hq. change (Qnat 15) with 15 in Hq.
      split; [div_consts; lra | lia].
  - split; [|lia]. destruct (word_count text <? 100)%nat; lra.
Qed.

Lemma sensationalism_score_high (text : str) :
  0.5 < _check_sensationalism text
  <-> (2 <= keyword_count sensational_keywords (lower text))%nat.
Proof.
  unfold _check_sensationalism.
  set (n := keyword_count sensational_keywords (lower text)).
  destruct (Nat.lt_ge_cases n 2) as [Hlt|Hge].
  - assert (Hle : (n <= 1)%nat) by lia. apply Qnat_le in Hle.
    change (Qnat 1) with 1 in Hle. split; [score_lra | lia].
  - pose proof (Qnat_le _ _ Hge) as Hq. change (Qnat 2) with 2 in Hq.
    split; [intros _; exact Hge | intros _; score_lra].
Qed.

Lemma ratio_gt (u l : nat) (x : Q) :
  (0 < l)%nat -> (x < Qnat u / Qnat l <-> x * Qnat l < Qnat u).
Proof.
  intros Hl. assert (Hpos : 0 < Qnat l) by (apply (Qnat_lt 0 l Hl)).
  rewrite <- (Qmult_lt_r x (Qnat u / Qnat l) (Qnat l) Hpos).
  assert (E : Qnat u / Qnat l * Qnat l == Qnat u) by (field; lra).
  rewrite E. reflexivity.
Qed.

Lemma capitalization_score_high (text : str) :
  0.6 < _check_capitalization text
  <-> (2 * alphabetic_count text < 5 * uppercase_count text)%nat.
Proof.
  rewrite check_capitalization_counts.
  pose proof (uppercase_le_alphabetic text) as Hle.
  destruct (alphabetic_count text) as [|n] eqn:Hn; [split; [lra | lia]|].
  rewrite <- Hn in *. cbv zeta.
  assert (Hr : 0.4 < Qnat (uppercase_count text) / Qnat (alphabetic_count text)
               <-> (2 * alphabetic_count text < 5 * uppercase_count text)%nat).
  { rewrite ratio_gt by lia. unfold Qnat.
    assert (E1 : inject_Z (Z.of_nat (2 * alphabetic_count text))
                 == 2 * inject_Z (Z.of_nat (alphabetic_count text)))
      by (rewrite Nat2Z.inj_mul, inject_Z_mult; reflexivity).
    assert (E2 : inject_Z (Z.of_nat (5 * uppercase_count text))
                 == 5 * inject_Z (Z.of_nat (uppercase_count text)))
      by (rewrite Nat2Z.inj_mul, inject_Z_mult; reflexivity).
    split.
    - intros Hlt. apply Nat2Z.inj_lt. rewrite Zlt_Qlt. lra.
    - intros Hlt. apply Nat2Z.inj_lt in Hlt. rewrite Zlt_Qlt in Hlt. lra. }
  rewrite <- Hr. clear Hr.
  set (r := Qnat (uppercase_count text) / Qnat (alphabetic_count text)).
  destruct (gt r 0.6) eqn:G1; [apply gt_true in G1; split; lra|].
  apply gt_false in G1.
  destruct (gt r 0.4) eqn:G2; [apply gt_true in G2; split; lra|].
  apply gt_false in G2.
  destruct (gt r 0.2) eqn:G3; [apply gt_true in G3 | apply gt_false in G3];
    split; lra.
Qed.

Lemma check_punctuation_anomalies (text : str) :
  _check_punctuation text == Qmin (anomalies text / 5) 1.
Proof.
  unfold _check_punctuation, anomalies, exclaim_count, question_count,
    interrobang_count, ellipsis_run_count, multi_exclaim_run_count.
  change (lit "!") with [chr "!"]. change (lit "?") with [chr "?"].
  change (lit "?!") with [chr "?"; chr "!"].
  rewrite !count_char, count_pair by (vm_compute; discriminate).
  rewrite !findall_rep_runs by lia.
  score_lra.
Qed.

Lemma punctuation_score_high (text : str) :
  0.6 < _check_punctuation text <-> 3 < anomalies text.
Proof.
  rewrite check_punctuation_anomalies.
  split; intros Hh; [revert Hh|]; score_lra.
Qed.

Lemma anomalies_nonneg (text : str) : 0 <= anomalies text.
Proof.
  unfold anomalies.
  pose proof (Qnat_nonneg (exclaim_count text)).
  pose proof (Qnat_nonneg (question_count text)).
  pose proof (Qnat_nonneg (interrobang_count text)).
  pose proof (Qnat_nonneg (ellipsis_run_count text)).
  pose proof (Qnat_nonneg (multi_exclaim_run_count text)).
  div_consts. lra.
Qed.

(** The flags of a result, when there are any, are those of a successful
    analysis. *)
Lemma analyze_flags_inv (headline body : str) (flags : list str) :
  let text := strip (concatenation headline body) in
  snd (analyze headline body) !! "flags"%string = Some (VList flags) ->
  text <> []
  /\ flags = warnings sensational_flag punctuation_flag caps_flag short_flag
               (_check_sensationalism text) (_check_punctuation text)
               (_check_capitalization text) (_check_length text headline).
Proof.
  cbv zeta. intros Hflags.
  destruct (decide (strip (concatenation headline body) = []))
    as [Hempty|Hne].
  - rewrite (analyze_empty_text headline body Hempty) in Hflags.
    cbn [snd] in Hflags. rewrite lookup_singleton_ne in Hflags by discriminate.
    discriminate.
  - rewrite (analyze_flags headline body Hne) in Hflags.
    split; [exact Hne | congruence].
Qed.

End FlagFacts.

Import Derived.

(** X1. In the result of an analysis the warning "Suspiciously short
    content" is present exactly when the combined text has fewer than 15
    words. *)
Theorem short_content_flag_iff `{UnicodeData}
    (headline body : str) (flags : list str) :
  snd (analyze headline body) !! "flags"%string = Some (VList flags) ->
  (In short_flag flags
   <-> (word_count (strip (concatenation headline body)) < 15)%nat).
Proof.
  intros Hflags. destruct (analyze_flags_inv _ _ _ Hflags) as [_ ->].
  rewrite <- length_score_high. apply in_flags.
Qed.

Lemma short_content_flag_iff_witness :
  snd (analyze (H := ascii_tables) (lit "Hello world") [])
    !! "flags"%string = Some (VList [short_flag])
  /\ (In short_flag [short_flag]
      <-> (word_count (strip (concatenation (lit "Hello world") [])) < 15)%nat).
Proof.
  assert (Hf : snd (analyze (H := ascii_tables) (lit "Hello world") [])
                 !! "flags"%string = Some (VList [short_flag]))
    by (vm_compute; reflexivity).
  split; [exact Hf|].
  exact (short_content_flag_iff (H := ascii_tables) _ _ _ Hf).
Defined.

(** X2. The warning "Sensationalist language detected" is present exactly
    when at least two of the sensational terms occur in the lower-cased
    combined text: two different terms of the list are both substrings of
    it. *)
Theorem sensational_flag_iff `{UnicodeData}
    (headline body : str) (flags : list str) :
  snd (analyze headline body) !! "flags"%string = Some (VList flags) ->
  (In sensational_flag flags
   <-> (2 <= keyword_count sensational_keywords
               (lower (strip (concatenation headline body))))%nat)
  /\ (In sensational_flag flags
      <-> exists w1 w2 : str,
            w1 <> w2
            /\ In w1 sensational_keywords /\ In w2 sensational_keywords
            /\ substring w1 (lower (strip (concatenation headline body)))
            /\ substring w2 (lower (strip (concatenation headline body)))).
Proof.
  intros Hflags. destruct (analyze_flags_inv _ _ _ Hflags) as [_ ->].
  assert (Hcount : In sensational_flag
                     (warnings sensational_flag punctuation_flag caps_flag
                        short_flag
                        (_check_sensationalism
                           (strip (concatenation headline body)))
                        (_check_punctuation
                           (strip (concatenation headline body)))
                        (_check_capitalization
                           (strip (concatenation headline body)))
                        (_check_length
                           (strip (concatenation headline body)) headline))
                   <-> (2 <= keyword_count sensational_keywords
                               (lower (strip (concatenation headline body))))%nat).
  { rewrite <- sensationalism_score_high. apply in_flags. }
  split; [exact Hcount|].
  rewrite Hcount. apply keyword_count_two, sensational_keywords_distinct.
Qed.

Lemma sensational_flag_iff_witness :
  snd (analyze (H := ascii_tables) (lit "Secret evidence") [])
    !! "flags"%string = Some (VList [sensational_flag; short_flag])
  /\ (In sensational_flag [sensational_flag; short_flag]
      <-> exists w1 w2 : str,
            w1 <> w2
            /\ In w1 sensational_keywords /\ In w2 sensational_keywords
            /\ substring w1
                 (lower (UnicodeData := ascii_tables)
                    (strip (concatenation (lit "Secret evidence") [])))
            /\ substring w2
                 (lower (UnicodeData := ascii_tables)
                    (strip (concatenation (lit "Secret evidence") [])))).
Proof.
  assert (Hf : snd (analyze (H := ascii_tables) (lit "Secret evidence") [])
                 !! "flags"%string
               = Some (VList [sensational_flag; short_flag]))
    by (vm_compute; reflexivity).
  split; [exact Hf|].
  exact (proj2 (sensational_flag_iff (H := ascii_tables) _ _ _ Hf)).
Defined.

(** X3. The warning "Excessive capitalization (shouting)" is present
    exactly when more than 40% of the alphabetic characters of the combined
    text are upper-case (2 * letters < 5 * capitals). *)
Theorem caps_flag_iff `{UnicodeData}
    (headline body : str) (flags : list str) :
  snd (analyze headline body) !! "flags"%string = Some (VList flags) ->
  (In caps_flag flags
   <-> (2 * alphabetic_count (strip (concatenation headline body))
        < 5 * uppercase_count (strip (concatenation headline body)))%nat).
Proof.
  intros Hflags. destruct (analyze_flags_inv _ _ _ Hflags) as [_ ->].
  rewrite <- capitalization_score_high. apply in_flags.
Qed.

Lemma caps_flag_iff_witness :
  snd (analyze (H := ascii_tables) (lit "READ this") [])
    !! "flags"%string = Some (VList [caps_flag; short_flag])
  /\ (In caps_flag [caps_flag; short_flag]
      <-> (2 * alphabetic_count (H := ascii_tables)
                 (strip (concatenation (lit "READ this") []))
           < 5 * uppercase_count (H := ascii_tables)
                   (strip (concatenation (lit "READ this") [])))%nat).
Proof.
  assert (Hf : snd (analyze (H := ascii_tables) (lit "READ this") [])
                 !! "flags"%string = Some (VList [caps_flag; short_flag]))
    by (vm_compute; reflexivity).
  split; [exact Hf|].
  exact (caps_flag_iff (H := ascii_tables) _ _ _ Hf).
Defined.

(** X4. The warning "Excessive punctuation" is present exactly when the
    weighted sum of anomalies exceeds 3; in particular it is present
    whenever the combined text contains two exclamation marks in a row. *)
Theorem punctuation_flag_iff `{UnicodeData}
    (headline body : str) (flags : list str) :
  snd (analyze headline body) !! "flags"%string = Some (VList flags) ->
  (In punctuation_flag flags
   <-> 3 < anomalies (strip (concatenation headline body)))
  /\ (contains (lit "!!") (strip (concatenation headline body)) = true ->
      In punctuation_flag flags).
Proof.
  intros Hflags. destruct (analyze_flags_inv _ _ _ Hflags) as [_ ->].
  set (text := strip (concatenation headline body)).
  assert (Hiff : In punctuation_flag
                   (warnings sensational_flag punctuation_flag caps_flag
                      short_flag (_check_sensationalism text)
                      (_check_punctuation text) (_check_capitalization text)
                      (_check_length text headline))
                 <-> 3 < anomalies text).
  { rewrite <- punctuation_score_high. apply in_flags. }
  split; [exact Hiff|].
  intros Hbang. apply Hiff.
  change (lit "!!") with (replicate 2 (chr "!")) in Hbang.
  apply (runs_at_least_contains (chr "!") 2 text) in Hbang; [|lia].
  pose proof (run_starts_occurrences (chr "!") 2 false text Hbang) as Hocc.
  apply Qnat_le in Hbang, Hocc.
  change (Qnat 1) with 1 in Hbang. change (Qnat 2) with 2 in Hocc.
  unfold anomalies.
  fold (runs_at_least (chr "!") 2 text) in Hbang.
  change (runs_at_least (chr "!") 2 text)
    with (multi_exclaim_run_count text) in Hbang.
  change (occurrences (chr "!") text) with (exclaim_count text) in Hocc.
  pose proof (Qnat_nonneg (question_count text)).
  pose proof (Qnat_nonneg (interrobang_count text)).
  pose proof (Qnat_nonneg (ellipsis_run_count text)).
  div_consts. lra.
Qed.

Lemma punctuation_flag_iff_witness :
  snd (analyze (H := ascii_tables) (lit "Sale ends today!!") [])
    !! "flags"%string = Some (VList [punctuation_flag; short_flag])
  /\ contains (lit "!!") (strip (concatenation (lit "Sale ends today!!") []))
     = true
  /\ In punctuation_flag [punctuation_flag; short_flag].
Proof.
  assert (Hf : snd (analyze (H := ascii_tables) (lit "Sale ends today!!") [])
                 !! "flags"%string = Some (VList [punctuation_flag; short_flag]))
    by (vm_compute; reflexivity).
  assert (Hb : contains (lit "!!")
                 (strip (concatenation (lit "Sale ends today!!") [])) = true)
    by reflexivity.
  split; [exact Hf | split; [exact Hb|]].
  destruct (punctuation_flag_iff (H := ascii_tables) _ _ _ Hf) as [_ Hbang].
  exact (Hbang Hb).
Defined.

(** X5. The punctuation sub-score is 0 exactly when the text contains no
    exclamation mark, no question mark and no three dots in a row: no other
    character contributes to it. *)
Theorem punctuation_zero_iff (text : str) :
  _check_punctuation text == 0
  <-> ~ In (chr "!") text /\ ~ In (chr "?") text
      /\ contains (lit "...") text = false.
Proof.
  rewrite check_punctuation_anomalies.
  rewrite <- !occurrences_zero.
  change (lit "...") with (replicate 3 (chr ".")).
  pose proof (runs_at_least_contains (chr ".") 3 text ltac:(lia)) as Hdots.
  pose proof (pair_occurrences_le_first (chr "?") (chr "!") text) as Hpair.
  pose proof (run_starts_occurrences (chr "!") 2 false text) as Hmulti.
  pose proof (anomalies_nonneg text) as Hnn.
  unfold anomalies, exclaim_count, question_count, interrobang_count,
    ellipsis_run_count, multi_exclaim_run_count in *.
  fold (runs_at_least (chr "!") 2 text) in Hmulti.
  set (e := occurrences (chr "!") text) in *.
  set (q := occurrences (chr "?") text) in *.
  set (i := pair_occurrences (chr "?") (chr "!") text) in *.
  set (d := runs_at_least (chr ".") 3 text) in *.
  set (m := runs_at_least (chr "!") 2 text) in *.
  pose proof (Qnat_nonneg e). pose proof (Qnat_nonneg q).
  pose proof (Qnat_nonneg i). pose proof (Qnat_nonneg d).
  pose proof (Qnat_nonneg m).
  split.
  - intros Hzero.
    assert (Hsum : Qnat e / 3 + Qnat q / 3 + Qnat i * 2 + Qnat d * 1.5
                   + Qnat m * 3 == 0) by (revert Hzero; score_lra).
    assert (He : Qnat e == 0) by (revert Hsum; div_consts; lra).
    assert (Hq : Qnat q == 0) by (revert Hsum; div_consts; lra).
    assert (Hd : Qnat d == 0) by (revert Hsum; div_consts; lra).
    assert (Hz : forall n : nat, Qnat n == 0 -> n = 0%nat).
    { intros n Hn. destruct n; [reflexivity|].
      pose proof (Qnat_lt 0 (S n) ltac:(lia)) as Hlt.
      change (Qnat 0) with 0 in Hlt. lra. }
    apply Hz in He, Hq, Hd. repeat split; [exact He | exact Hq |].
    apply not_true_is_false. intros Hc. apply Hdots in Hc. lia.
  - intros [He [Hq Hc]].
    assert (Hd : d = 0%nat).
    { destruct d; [reflexivity|].
      assert (Ht : contains (replicate 3 (chr ".")) text = true)
        by (apply Hdots; lia).
      congruence. }
    assert (Hi : i = 0%nat) by lia.
    assert (Hm : m = 0%nat) by (destruct m; [reflexivity | lia]).
    rewrite He, Hq, Hi, Hd, Hm. vm_compute. reflexivity.
Qed.

Lemma punctuation_zero_iff_witness :
  (~ In (chr "!") (lit "Rain, then sun.. mostly")
   /\ ~ In (chr "?") (lit "Rain, then sun.. mostly")
   /\ contains (lit "...") (lit "Rain, then sun.. mostly") = false)
  /\ _check_punctuation (lit "Rain, then sun.. mostly") == 0.
Proof.
  assert (Hclean : ~ In (chr "!") (lit "Rain, then sun.. mostly")
                   /\ ~ In (chr "?") (lit "Rain, then sun.. mostly")
                   /\ contains (lit "...") (lit "Rain, then sun.. mostly")
                      = false).
  { split; [|split; [|reflexivity]];
      intros Hin; vm_compute in Hin; intuition discriminate. }
  split; [exact Hclean|].
  exact (proj2 (punctuation_zero_iff (lit "Rain, then sun.. mostly")) Hclean).
Defined.

(** ** Keywords, risk and verdict *)

Section KeywordFacts.
Import PyStr Py Spec TextAnalyzer.
Local Open Scope Q_scope.

Lemma contains_embedded (w l t r : str) :
  contains w t = true -> contains w (l ++ t ++ r) = true.
Proof.
  rewrite !contains_substring. intros [a [b ->]].
  exists (l ++ a), (b ++ r). rewrite <- !app_assoc. reflexivity.
Qed.

Lemma filter_length_mono {A : Type} (f g : A -> bool) (l : list A) :
  (forall x, In x l -> f x = true -> g x = true) ->
  (length (List.filter f l) <= length (List.filter g l))%nat.
Proof.
  induction l as [|x l IH]; intros Hfg; [reflexivity|].
  simpl. assert (IH' := IH (fun y Hy => Hfg y (or_intror Hy))).
  destruct (f x) eqn:Hf.
  - rewrite (Hfg x (or_introl eq_refl) Hf). simpl. lia.
  - destruct (g x); simpl; lia.
Qed.

Lemma keyword_count_embedded (words : list str) (l t r : str) :
  (keyword_count words t <= keyword_count words (l ++ t ++ r))%nat.
Proof.
  apply filter_length_mono. intros w _. apply contains_embedded.
Qed.

Lemma keyword_count_none (words : list str) (t : str) :
  (forall w, In w words -> contains w t = false) ->
  keyword_count words t = 0%nat.
Proof.
  intros Hnone. unfold keyword_count.
  induction words as [|w words IH]; [reflexivity|].
  simpl. rewrite (Hnone w (or_introl eq_refl)).
  apply IH. intros w' Hw'. apply Hnone. right. exact Hw'.
Qed.

Lemma get_verdict_not_high (s : Q) :
  s <= 0.7 -> get_verdict s <> lit "HIGH RISK".
Proof.
  intros Hs. unfold get_verdict. apply gt_false in Hs. rewrite Hs.
  destruct (gt s 0.4); intros E; vm_compute in E; discriminate.
Qed.

Lemma strip_idempotent (s : str) : strip (strip s) = strip s.
Proof. apply strip_fixed; [apply strip_head | apply strip_last]. Qed.

Lemma round_half_even_error (q : Q) :
  - (1 # 2) <= inject_Z (round_half_even q) - q
  /\ inject_Z (round_half_even q) - q <= 1 # 2.
Proof.
  unfold round_half_even.
  pose proof (Qfloor_le q) as Hlo. pose proof (Qlt_floor q) as Hhi.
  rewrite inject_Z_plus in Hhi. change (inject_Z 1) with 1 in Hhi.
  destruct (Qcompare_spec (q - inject_Z (Qfloor q)) (1 # 2)) as [He|Hl|Hg].
  - destruct (Z.even (Qfloor q)).
    + split; lra.
    + rewrite inject_Z_plus. change (inject_Z 1) with 1. split; lra.
  - split; lra.
  - rewrite inject_Z_plus. change (inject_Z 1) with 1. split; lra.
Qed.

Lemma round3_error (x : Q) :
  - 0.0005 <= round x 3 - x /\ round x 3 - x <= 0.0005.
Proof.
  unfold round. change (inject_Z (10 ^ Z.of_nat 3)) with 1000.
  destruct (round_half_even_error (x * 1000)) as [Hlo Hhi].
  set (z := inject_Z (round_half_even (x * 1000))) in *.
  split; div_consts; lra.
Qed.

Context `{UnicodeData}.

Lemma emotional_score_cases (text : str) :
  _check_emotional_content text
  == Qmin (Qnat (keyword_count emotional_words (lower text)) / 4) 1.
Proof. unfold _check_emotional_content. score_lra. Qed.

Lemma analyze_fst_nonempty (headline body : str) :
  let text := strip (concatenation headline body) in
  text <> [] ->
  fst (analyze headline body)
  == _check_sensationalism text * 0.30 + _check_punctuation text * 0.20
     + _check_capitalization text * 0.20 + _check_length text headline * 0.15
     + _check_emotional_content text * 0.15.
Proof.
  intros text Hne. rewrite (analyze_nonempty headline body Hne). cbv zeta.
  fold text. cbn [fst].
  destruct (weighted_sum_unit _ _ _ _ _
              (check_sensationalism_unit text) (check_punctuation_unit text)
              (check_capitalization_unit text)
              (check_length_unit text headline)
              (check_emotional_content_unit text)) as [H0 H1].
  minmax_lra.
Qed.

Lemma word_count_nonempty (headline body : str) :
  let text := strip (concatenation headline body) in
  text <> [] -> (1 <= word_count text)%nat.
Proof.
  intros text Hne. rewrite <- split_word_count. apply split_nonempty.
  unfold text. rewrite strip_idempotent. exact Hne.
Qed.

End KeywordFacts.

(** X6. The emotional sub-score is min(count / 4, 1), where count is the
    number of the 9 emotional terms that occur as substrings of the
    lower-cased text, each term counted once; it never decreases when count
    grows, and it is 1 exactly when count >= 4. *)
Theorem emotional_content_saturation `{UnicodeData} (text text' : str) :
  let count := keyword_count emotional_words (lower text) in
  let count' := keyword_count emotional_words (lower text') in
  length emotional_words = 9%nat
  /\ (exists matched : list str,
        List.NoDup matched
        /\ (forall w : str,
              In w matched <-> In w emotional_words /\ substring w (lower text))
        /\ count = length matched)
  /\ (forall w : str,
        In w (List.filter (fun w => contains w (lower text)) emotional_words)
        <-> In w emotional_words /\ substring w (lower text))
  /\ _check_emotional_content text == Qmin (Qnat count / 4) 1
  /\ ((count <= count')%nat ->
      _check_emotional_content text <= _check_emotional_content text')
  /\ ((4 <= count)%nat <-> _check_emotional_content text == 1).
Proof.
  intros count count'.
  split; [reflexivity|].
  split; [apply keyword_count_matched, emotional_words_distinct|].
  split; [intros w; rewrite filter_In, contains_substring; reflexivity|].
  split; [apply emotional_score_cases|].
  rewrite !emotional_score_cases. fold count count'.
  split; [intros Hle; apply Qnat_le in Hle; score_lra|].
  split.
  - intros H4. apply Qnat_le in H4. change (Qnat 4) with 4 in H4. score_lra.
  - intros Hone. destruct (Nat.lt_ge_cases count 4) as [Hlt|Hge]; [|exact Hge].
    exfalso. apply Qnat_lt in Hlt. change (Qnat 4) with 4 in Hlt.
    revert Hone. score_lra.
Qed.

Lemma emotional_content_saturation_witness :
  (keyword_count emotional_words
     (lower (UnicodeData := ascii_tables) (lit "I love it"))
   <= keyword_count emotional_words
        (lower (UnicodeData := ascii_tables)
           (lit "Fear, hate, angry: HORRIBLE")))%nat
  /\ _check_emotional_content (H := ascii_tables) (lit "I love it")
     <= _check_emotional_content (H := ascii_tables)
          (lit "Fear, hate, angry: HORRIBLE")
  /\ _check_emotional_content (H := ascii_tables)
       (lit "Fear, hate, angry: HORRIBLE") == 1.
Proof.
  assert (Hle : (keyword_count emotional_words
                   (lower (UnicodeData := ascii_tables) (lit "I love it"))
                 <= keyword_count emotional_words
                      (lower (UnicodeData := ascii_tables)
                         (lit "Fear, hate, angry: HORRIBLE")))%nat)
    by (vm_compute; lia).
  assert (H4 : (4 <= keyword_count emotional_words
                       (lower (UnicodeData := ascii_tables)
                          (lit "Fear, hate, angry: HORRIBLE")))%nat)
    by (vm_compute; lia).
  pose proof (emotional_content_saturation (H := ascii_tables)
                (lit "I love it") (lit "Fear, hate, angry: HORRIBLE")) as P1.
  pose proof (emotional_content_saturation (H := ascii_tables)
                (lit "Fear, hate, angry: HORRIBLE") (lit "I love it")) as P2.
  cbv zeta in P1, P2.
  destruct P1 as (_ & _ & _ & _ & Hmono & _).
  destruct P2 as (_ & _ & _ & _ & _ & Hsat).
  split; [exact Hle | split; [exact (Hmono Hle) | apply Hsat; exact H4]].
Defined.

(** X7. When lower-casing acts character by character (it distributes over
    concatenation), surrounding a text with more text never lowers its
    sensational or its emotional sub-score: a term is matched wherever it
    occurs, inside other words too, and each term counts once. *)
Theorem keyword_scores_embedding `{UnicodeData} (l t r : str) :
  (forall a b : str, lower (a ++ b) = lower a ++ lower b) ->
  _check_sensationalism t <= _check_sensationalism (l ++ t ++ r)
  /\ _check_emotional_content t <= _check_emotional_content (l ++ t ++ r).
Proof.
  intros Hlower.
  unfold _check_sensationalism, _check_emotional_content.
  rewrite !Hlower.
  pose proof (keyword_count_embedded sensational_keywords
                (lower l) (lower t) (lower r)) as Hs.
  pose proof (keyword_count_embedded emotional_words
                (lower l) (lower t) (lower r)) as He.
  apply Qnat_le in Hs, He. split; score_lra.
Qed.

Lemma keyword_scores_embedding_witness :
  (forall a b : str,
      lower (UnicodeData := ascii_tables) (a ++ b)
      = lower (UnicodeData := ascii_tables) a
        ++ lower (UnicodeData := ascii_tables) b)
  /\ _check_sensationalism (H := ascii_tables) (lit "proof")
     <= _check_sensationalism (H := ascii_tables)
          (lit "Bullet" ++ lit "proof" ++ lit " vest").
Proof.
  assert (Hlower : forall a b : str,
             lower (UnicodeData := ascii_tables) (a ++ b)
             = lower (UnicodeData := ascii_tables) a
               ++ lower (UnicodeData := ascii_tables) b)
    by (intros a b; apply List.map_app).
  split; [exact Hlower|].
  apply (keyword_scores_embedding (H := ascii_tables)
           (lit "Bullet") (lit "proof") (lit " vest") Hlower).
Defined.

(** X8. When none of the sensational terms occurs in the lower-cased
    combined text, the risk score is at most 0.7, so the verdict of the
    analysis is never "HIGH RISK", whatever the punctuation, the
    capitalization, the length and the emotional terms. *)
Theorem no_sensational_term_not_high `{UnicodeData} (headline body : str) :
  (forall w : str,
      In w sensational_keywords ->
      contains w (lower (strip (concatenation headline body))) = false) ->
  fst (analyze headline body) <= 0.7
  /\ get_verdict (fst (analyze headline body)) <> lit "HIGH RISK".
Proof.
  intros Hnone.
  assert (Hle : fst (analyze headline body) <= 0.7).
  { destruct (decide (strip (concatenation headline body) = [])) as [He|Hne].
    - rewrite (analyze_empty_text headline body He). cbn [fst]. lra.
    - rewrite (analyze_fst_nonempty headline body Hne).
      set (text := strip (concatenation headline body)) in *.
      assert (Hs : _check_sensationalism text == 0).
      { unfold _check_sensationalism.
        rewrite (keyword_count_none _ _ Hnone). vm_compute. reflexivity. }
      destruct (check_punctuation_unit text).
      destruct (check_capitalization_unit text).
      destruct (check_length_unit text headline).
      destruct (check_emotional_content_unit text).
      rewrite Hs. lra. }
  split; [exact Hle | apply get_verdict_not_high, Hle].
Qed.

Lemma no_sensational_term_not_high_witness :
  (forall w : str,
      In w sensational_keywords ->
      contains w (lower (UnicodeData := ascii_tables)
                    (strip (concatenation (lit "I HATE THIS!!! WHY?!")
                              (lit "FEAR...")))) = false)
  /\ get_verdict (fst (analyze (H := ascii_tables)
                         (lit "I HATE THIS!!! WHY?!") (lit "FEAR...")))
     <> lit "HIGH RISK".
Proof.
  assert (Hnone : forall w : str,
             In w sensational_keywords ->
             contains w (lower (UnicodeData := ascii_tables)
                           (strip (concatenation (lit "I HATE THIS!!! WHY?!")
                                     (lit "FEAR...")))) = false).
  { intros w Hw. vm_compute in Hw.
    repeat (destruct Hw as [<-|Hw]; [vm_compute; reflexivity|]).
    destruct Hw. }
  split; [exact Hnone|].
  apply (no_sensational_term_not_high (H := ascii_tables)
           (lit "I HATE THIS!!! WHY?!") (lit "FEAR...") Hnone).
Defined.

(** X9. A combined text of at least 100 words in which no sensational and
    no emotional term occurs has a risk score of at most 0.4 and the verdict
    "LOW RISK", whatever its punctuation and capitalization. *)
Theorem long_neutral_text_low `{UnicodeData} (headline body : str) :
  let text := strip (concatenation headline body) in
  (100 <= word_count text)%nat ->
  (forall w : str,
      In w sensational_keywords -> contains w (lower text) = false) ->
  (forall w : str,
      In w emotional_words -> contains w (lower text) = false) ->
  fst (analyze headline body) <= 0.4
  /\ get_verdict (fst (analyze headline body)) = lit "LOW RISK".
Proof.
  intros text Hlong Hsens Hemo.
  assert (Hne : text <> []).
  { intros He. rewrite He in Hlong. unfold word_count in Hlong.
    simpl in Hlong. lia. }
  assert (Hle : fst (analyze headline body) <= 0.4).
  { rewrite (analyze_fst_nonempty headline body Hne). fold text.
    assert (Hs : _check_sensationalism text == 0).
    { unfold _check_sensationalism.
      rewrite (keyword_count_none _ _ Hsens). vm_compute. reflexivity. }
    assert (He : _check_emotional_content text == 0).
    { unfold _check_emotional_content.
      rewrite (keyword_count_none _ _ Hemo). vm_compute. reflexivity. }
    assert (Hl : _check_length text headline == 0).
    { unfold _check_length. rewrite split_word_count.
      destruct (Nat.ltb_spec (word_count text) 50); [lia|].
      destruct (Nat.ltb_spec (word_count text) 100); [lia | reflexivity]. }
    destruct (check_punctuation_unit text).
    destruct (check_capitalization_unit text).
    rewrite Hs, He, Hl. lra. }
  split; [exact Hle | apply get_verdict_cases, Hle].
Qed.

Lemma long_neutral_text_low_witness :
  let headline := lit "REPORT!!" in
  let body := concat (replicate 100 (lit "RAIN fell. ")) in
  let text := strip (concatenation headline body) in
  (100 <= word_count text)%nat
  /\ (forall w : str,
        In w sensational_keywords ->
        contains w (lower (UnicodeData := ascii_tables) text) = false)
  /\ (forall w : str,
        In w emotional_words ->
        contains w (lower (UnicodeData := ascii_tables) text) = false)
  /\ get_verdict (fst (analyze (H := ascii_tables) headline body))
     = lit "LOW RISK".
Proof.
  intros headline body text.
  assert (Hlong : (100 <= word_count text)%nat) by (vm_compute; lia).
  assert (Hsens : forall w : str,
             In w sensational_keywords ->
             contains w (lower (UnicodeData := ascii_tables) text) = false).
  { intros w Hw. vm_compute in Hw.
    repeat (destruct Hw as [<-|Hw]; [vm_compute; reflexivity|]).
    destruct Hw. }
  assert (Hemo : forall w : str,
             In w emotional_words ->
             contains w (lower (UnicodeData := ascii_tables) text) = false).
  { intros w Hw. vm_compute in Hw.
    repeat (destruct Hw as [<-|Hw]; [vm_compute; reflexivity|]).
    destruct Hw. }
  split; [exact Hlong | split; [exact Hsens | split; [exact Hemo|]]].
  apply (long_neutral_text_low (H := ascii_tables) headline body
           Hlong Hsens Hemo).
Defined.

(** X10. A successful analysis has at least one word, so its length
    sub-score is at most 0.98; hence no analysis returns a risk score above
    0.997, the clamp to 1 never applies, and 0.997 is reached. *)
Theorem risk_score_maximum `{UnicodeData} (headline body : str) :
  let text := strip (concatenation headline body) in
  fst (analyze headline body) <= 0.997
  /\ (text <> [] ->
      (1 <= word_count text)%nat /\ _check_length text headline <= 0.98)
  /\ fst (analyze (H := ascii_tables)
            (lit "SHOCKINGBANNEDEXPOSEDFEARHATELOVEANGRY!!?!") []) == 0.997.
Proof.
  intros text.
  assert (Hlen : text <> [] ->
                 (1 <= word_count text)%nat
                 /\ _check_length text headline <= 0.98).
  { intros Hne. pose proof (word_count_nonempty headline body Hne) as Hw.
    fold text in Hw. split; [exact Hw|].
    unfold _check_length. rewrite split_word_count.
    pose proof (Qnat_le _ _ Hw) as Hq. change (Qnat 1) with 1 in Hq.
    destruct (word_count text <? 50)%nat; [div_consts; lra|].
    destruct (word_count text <? 100)%nat; lra. }
  split; [|split; [exact Hlen | vm_compute; reflexivity]].
  destruct (decide (text = [])) as [He|Hne].
  - unfold text in He. rewrite (analyze_empty_text headline body He).
    cbn [fst]. lra.
  - rewrite (analyze_fst_nonempty headline body Hne). fold text.
    destruct (Hlen Hne) as [_ Hl].
    destruct (check_sensationalism_unit text).
    destruct (check_punctuation_unit text).
    destruct (check_capitalization_unit text).
    destruct (check_emotional_content_unit text).
    lra.
Qed.

Lemma risk_score_maximum_witness :
  strip (concatenation (lit "Storm warning") (lit "for the coast")) <> []
  /\ _check_length
       (strip (concatenation (lit "Storm warning") (lit "for the coast")))
       (lit "Storm warning") <= 0.98.
Proof.
  assert (Hne : strip (concatenation (lit "Storm warning")
                         (lit "for the coast")) <> [])
    by (vm_compute; discriminate).
  split; [exact Hne|].
  destruct (risk_score_maximum (H := ascii_tables)
              (lit "Storm warning") (lit "for the coast")) as [_ [Hlen _]].
  exact (proj2 (Hlen Hne)).
Defined.

(** X11. How the text is divided between headline and body does not matter:
    moving a leading part of the body to the end of the headline (or the
    whole body, leaving it empty) gives the same result, so the headline
    carries no weight of its own. *)
Theorem headline_body_split `{UnicodeData} (a b c : str) :
  analyze (a ++ [chr " "] ++ b) c = analyze a (b ++ [chr " "] ++ c)
  /\ analyze (a ++ [chr " "] ++ b) [] = analyze a b.
Proof.
  split.
  - apply analyze_combined_text. unfold concatenation.
    rewrite <- !app_assoc. reflexivity.
  - apply analyze_combined_text. unfold concatenation.
    replace ((a ++ [chr " "] ++ b) ++ [chr " "] ++ [])
      with ([] ++ (a ++ [chr " "] ++ b) ++ [chr " "])
      by (rewrite app_nil_l; reflexivity).
    apply (strip_pad [] _ [chr " "]); reflexivity.
Qed.

(** X12. The details of a successful analysis have exactly seven entries
    (the five sub-scores, the overall risk and the flags), and the overall
    risk they report is the returned risk score rounded to three decimals:
    the two differ by at most 0.0005. *)
Theorem details_entries `{UnicodeData} (headline body : str) :
  strip (concatenation headline body) <> [] ->
  dom (snd (analyze headline body))
  = list_to_set [ "sensational_score"; "punctuation_score"; "caps_score";
                  "length_score"; "emotional_score"; "overall_risk";
                  "flags" ]%string
  /\ exists reported : Q,
       snd (analyze headline body) !! "overall_risk"%string
       = Some (VFloat reported)
       /\ - 0.0005 <= reported - fst (analyze headline body)
       /\ reported - fst (analyze headline body) <= 0.0005.
Proof.
  intros Hne. rewrite (analyze_nonempty headline body Hne). cbv zeta.
  cbn [fst snd]. split.
  - rewrite dom_list_to_map_L. reflexivity.
  - eexists. split; [dict_lookup; reflexivity | apply round3_error].
Qed.

Lemma details_entries_witness :
  strip (concatenation (lit "Storm warning") (lit "for the coast")) <> []
  /\ dom (snd (analyze (H := ascii_tables)
                 (lit "Storm warning") (lit "for the coast")))
     = list_to_set [ "sensational_score"; "punctuation_score"; "caps_score";
                     "length_score"; "emotional_score"; "overall_risk";
                     "flags" ]%string.
Proof.
  assert (Hne : strip (concatenation (lit "Storm warning")
                         (lit "for the coast")) <> [])
    by (vm_compute; discriminate).
  split; [exact Hne|].
  apply (details_entries (H := ascii_tables)
           (lit "Storm warning") (lit "for the coast") Hne).
Defined.

(** ** [predict_news] *)

Section PredictFacts.
Import PyStr Py Spec TextAnalyzer.
Local Open Scope Q_scope.

Lemma round2_bounds (a b : Z) (x : Q) :
  inject_Z a / 100 <= x -> x <= inject_Z b / 100 ->
  inject_Z a / 100 <= round x 2 /\ round x 2 <= inject_Z b / 100.
Proof.
  intros Ha Hb. unfold round. change (inject_Z (10 ^ Z.of_nat 2)) with 100.
  destruct (round_half_even_bounds a b (x * 100)) as [Hlo Hhi].
  - revert Ha. div_consts. lra.
  - revert Hb. div_consts. lra.
  - rewrite Zle_Qle in Hlo, Hhi.
    set (z := inject_Z (round_half_even (x * 100))) in *.
    split; div_consts; lra.
Qed.

Context `{UnicodeData}.
Variable preprocess_text : str -> str.
Variable predict_proba : str -> Q * Q.
Variable model_name : str.

(** What [predict_news] returns for a non-empty content, entry by entry. *)
Lemma predict_news_entries (headline body : str) :
  let content := strip (concatenation headline body) in
  let final :=
    fst (predict_proba (preprocess_text content)) * 0.6
    + fst (analyze headline body) * 0.4 in
  let result :=
    App.predict_news preprocess_text predict_proba model_name headline body in
  content <> [] ->
  result !! "verdict"%string
  = Some (VStr (if gt final 0.7 then lit "HIGH RISK - Likely Fake News"
                else if gt final 0.4 then lit "MODERATE RISK - Verify Sources"
                else lit "LOW RISK - Appears Legitimate"))
  /\ result !! "confidence"%string
     = Some (VFloat (round (if gt final 0.7 then final * 100
                            else if gt final 0.4 then final * 100
                            else (1 - final) * 100) 2))
  /\ result !! "final_score"%string = Some (VFloat (round final 3))
  /\ result !! "heuristic_details"%string
     = Some (VDict (snd (analyze headline body)))
  /\ result !! "error"%string = None
  /\ dom result
     = list_to_set [ "verdict"; "color"; "confidence"; "final_score";
                     "ml_score"; "heuristic_score"; "ml_confidence";
                     "heuristic_details"; "model_name" ]%string.
Proof.
  intros content final result Hne. subst result. unfold App.predict_news.
  change (lit " ") with [chr " "].
  change (headline ++ [chr " "] ++ body) with (concatenation headline body).
  fold content. destruct content as [|c0 content'] eqn:Hcontent; [congruence|].
  destruct (analyze headline body) as [heuristic_score heuristic_details].
  cbn [fst snd] in *. fold final.
  destruct (gt final 0.7); [|destruct (gt final 0.4)];
    (do 5 (split; [dict_lookup; reflexivity|]);
     rewrite dom_list_to_map_L; reflexivity).
Qed.

Lemma predict_news_empty (headline body : str) :
  strip (concatenation headline body) = [] ->
  App.predict_news preprocess_text predict_proba model_name headline body
  = {[ "error"%string := VStr (lit "Please provide some text to analyze") ]}.
Proof.
  unfold App.predict_news, concatenation. change (lit " ") with [chr " "].
  intros ->. reflexivity.
Qed.

End PredictFacts.

(** X13. [predict_news] returns the one-entry error dictionary exactly when
    the trimmed concatenation of headline and body is empty.  Otherwise the
    result has exactly nine entries and no error, and the heuristic details
    it embeds are those of a successful analysis: they never hold the
    "Empty text" error of [analyze]. *)
Theorem predict_news_outcomes `{UnicodeData}
    (preprocess_text : str -> str) (predict_proba : str -> Q * Q)
    (model_name headline body : str) :
  let content := strip (concatenation headline body) in
  let result :=
    App.predict_news preprocess_text predict_proba model_name headline body in
  (content = [] ->
   result
   = {[ "error"%string := VStr (lit "Please provide some text to analyze") ]})
  /\ (content <> [] ->
      result !! "error"%string = None
      /\ dom result
         = list_to_set [ "verdict"; "color"; "confidence"; "final_score";
                         "ml_score"; "heuristic_score"; "ml_confidence";
                         "heuristic_details"; "model_name" ]%string
      /\ exists details : gmap string value,
           result !! "heuristic_details"%string = Some (VDict details)
           /\ details !! "error"%string = None
           /\ is_Some (details !! "overall_risk"%string))
  /\ (is_Some (result !! "error"%string) <-> content = []).
Proof.
  intros content result.
  assert (Hempty : content = [] ->
            result = {[ "error"%string :=
                          VStr (lit "Please provide some text to analyze") ]})
    by (apply predict_news_empty).
  assert (Hfull : content <> [] ->
            result !! "error"%string = None
            /\ dom result
               = list_to_set [ "verdict"; "color"; "confidence"; "final_score";
                               "ml_score"; "heuristic_score"; "ml_confidence";
                               "heuristic_details"; "model_name" ]%string
            /\ exists details : gmap string value,
                 result !! "heuristic_details"%string = Some (VDict details)
                 /\ details !! "error"%string = None
                 /\ is_Some (details !! "overall_risk"%string)).
  { intros Hne.
    destruct (predict_news_entries preprocess_text predict_proba model_name
                headline body Hne) as (_ & _ & _ & Hd & He & Hdom).
    split; [exact He | split; [exact Hdom|]].
    eexists. split; [exact Hd|].
    rewrite (analyze_nonempty headline body Hne). cbv zeta. cbn [snd].
    split; [dict_lookup; reflexivity | dict_lookup; eexists; reflexivity]. }
  split; [exact Hempty | split; [exact Hfull|]].
  split.
  - intros [v Hv]. destruct (decide (content = [])) as [He|Hne]; [exact He|].
    destruct (Hfull Hne) as [Hnone _]. congruence.
  - intros He. rewrite (Hempty He), lookup_singleton_eq. eexists; reflexivity.
Qed.

Lemma predict_news_outcomes_witness :
  strip (concatenation (lit "  ") []) = []
  /\ App.predict_news (H := ascii_tables) (fun s => s) (fun _ => (0.5, 0.5))
       (lit "model") (lit "  ") []
     = {[ "error"%string := VStr (lit "Please provide some text to analyze") ]}
  /\ strip (concatenation (lit "Storm warning") []) <> []
  /\ App.predict_news (H := ascii_tables) (fun s => s) (fun _ => (0.5, 0.5))
       (lit "model") (lit "Storm warning") [] !! "error"%string = None.
Proof.
  assert (He : strip (concatenation (lit "  ") []) = []) by reflexivity.
  assert (Hne : strip (concatenation (lit "Storm warning") []) <> [])
    by (vm_compute; discriminate).
  pose proof (predict_news_outcomes (H := ascii_tables) (fun s => s)
                (fun _ => (0.5, 0.5)) (lit "model") (lit "  ") []) as P1.
  pose proof (predict_news_outcomes (H := ascii_tables) (fun s => s)
                (fun _ => (0.5, 0.5)) (lit "model") (lit "Storm warning") [])
    as P2.
  cbv zeta in P1, P2. destruct P1 as [P1 _]. destruct P2 as [_ [P2 _]].
  split; [exact He | split; [exact (P1 He) | split; [exact Hne|]]].
  exact (proj1 (P2 Hne)).
Defined.

(** X14. When the classifier's probability of fake lies in [0, 1], the final
    score lies in [0, 1] and the confidence reported by [predict_news] lies
    between 40 and 100: above 70 for "HIGH RISK", above 40 and at most 70
    for "MODERATE RISK", at least 60 for "LOW RISK". *)
Theorem predict_news_confidence_range `{UnicodeData}
    (preprocess_text : str -> str) (predict_proba : str -> Q * Q)
    (model_name headline body : str) :
  let content := strip (concatenation headline body) in
  let ml := fst (predict_proba (preprocess_text content)) in
  let final := ml * 0.6 + fst (analyze headline body) * 0.4 in
  let result :=
    App.predict_news preprocess_text predict_proba model_name headline body in
  content <> [] -> 0 <= ml -> ml <= 1 ->
  (0 <= final /\ final <= 1)
  /\ exists confidence : Q,
       result !! "confidence"%string = Some (VFloat confidence)
       /\ 40 <= confidence /\ confidence <= 100
       /\ (0.7 < final -> 70 <= confidence)
       /\ (0.4 < final /\ final <= 0.7 -> confidence <= 70)
       /\ (final <= 0.4 -> 60 <= confidence).
Proof.
  intros content ml final result Hne Hml0 Hml1.
  destruct (analyze_score_unit headline body) as [Hh0 Hh1].
  assert (Hfinal : 0 <= final /\ final <= 1) by (unfold final; split; lra).
  split; [exact Hfinal|]. destruct Hfinal as [Hf0 Hf1].
  destruct (predict_news_entries preprocess_text predict_proba model_name
              headline body Hne) as (_ & Hc & _).
  fold content ml final result in Hc.
  eexists. split; [exact Hc|].
  destruct (gt final 0.7) eqn:G1;
    [apply gt_true in G1 | apply gt_false in G1;
     destruct (gt final 0.4) eqn:G2; [apply gt_true in G2 | apply gt_false in G2]].
  - pose proof (round2_bounds 7000 10000 (final * 100)) as Hr.
    change (inject_Z 7000) with 7000 in Hr. change (inject_Z 10000) with 10000 in Hr.
    destruct Hr as [Hlo Hhi]; [div_consts; lra | div_consts; lra |].
    revert Hlo Hhi. div_consts. intros Hlo Hhi. repeat split; intros; lra.
  - pose proof (round2_bounds 4000 7000 (final * 100)) as Hr.
    change (inject_Z 4000) with 4000 in Hr. change (inject_Z 7000) with 7000 in Hr.
    destruct Hr as [Hlo Hhi]; [div_consts; lra | div_consts; lra |].
    revert Hlo Hhi. div_consts. intros Hlo Hhi. repeat split; intros; lra.
  - pose proof (round2_bounds 6000 10000 ((1 - final) * 100)) as Hr.
    change (inject_Z 6000) with 6000 in Hr. change (inject_Z 10000) with 10000 in Hr.
    destruct Hr as [Hlo Hhi]; [div_consts; lra | div_consts; lra |].
    revert Hlo Hhi. div_consts. intros Hlo Hhi. repeat split; intros; lra.
Qed.

Lemma predict_news_confidence_range_witness :
  strip (concatenation (lit "Council approves budget") []) <> []
  /\ 0 <= 0.1 /\ 0.1 <= 1
  /\ exists confidence : Q,
       App.predict_news (H := ascii_tables) (fun s => s) (fun _ => (0.1, 0.9))
         (lit "model") (lit "Council approves budget") []
         !! "confidence"%string = Some (VFloat confidence)
       /\ 40 <= confidence /\ confidence <= 100.
Proof.
  assert (Hne : strip (concatenation (lit "Council approves budget") []) <> [])
    by (vm_compute; discriminate).
  assert (H0 : 0 <= 0.1) by discriminate.
  assert (H1 : 0.1 <= 1) by discriminate.
  split; [exact Hne | split; [exact H0 | split; [exact H1|]]].
  destruct (predict_news_confidence_range (H := ascii_tables) (fun s => s)
              (fun _ => (0.1, 0.9)) (lit "model")
              (lit "Council approves budget") [] Hne H0 H1)
    as [_ [confidence [Hc [Hlo [Hhi _]]]]].
  exists confidence. split; [exact Hc | split; [exact Hlo | exact Hhi]].
Defined.

(** X15. Neither source decides "HIGH RISK" alone: when the classifier's
    probability of fake is at most 1, a verdict "HIGH RISK - Likely Fake
    News" requires that probability to exceed 0.5 and the heuristic risk
    score to exceed 0.25. *)
Theorem high_risk_needs_both `{UnicodeData}
    (preprocess_text : str -> str) (predict_proba : str -> Q * Q)
    (model_name headline body : str) :
  let content := strip (concatenation headline body) in
  let ml := fst (predict_proba (preprocess_text content)) in
  let result :=
    App.predict_news preprocess_text predict_proba model_name headline body in
  ml <= 1 ->
  result !! "verdict"%string = Some (VStr (lit "HIGH RISK - Likely Fake News")) ->
  0.5 < ml /\ 0.25 < fst (analyze headline body).
Proof.
  intros content ml result Hml Hverdict.
  destruct (decide (content = [])) as [He|Hne].
  - subst result. unfold content in He.
    rewrite (predict_news_empty _ _ _ _ _ He) in Hverdict.
    rewrite lookup_singleton_ne in Hverdict by discriminate. discriminate.
  - destruct (predict_news_entries preprocess_text predict_proba model_name
                headline body Hne) as (Hv & _).
    fold content ml result in Hv. rewrite Hv in Hverdict. clear Hv.
    destruct (analyze_score_unit headline body) as [Hh0 Hh1].
    destruct (gt (ml * 0.6 + fst (analyze headline body) * 0.4) 0.7) eqn:G1.
    + apply gt_true in G1. split; lra.
    + exfalso.
      destruct (gt (ml * 0.6 + fst (analyze headline body) * 0.4) 0.4);
        injection Hverdict as E; vm_compute in E; discriminate.
Qed.

Lemma high_risk_needs_both_witness :
  0.9 <= 1
  /\ App.predict_news (H := ascii_tables) (fun s => s) (fun _ => (0.9, 0.1))
       (lit "model") (lit "SHOCKING TRUTH EXPOSED!!!") [] !! "verdict"%string
     = Some (VStr (lit "HIGH RISK - Likely Fake News"))
  /\ 0.25 < fst (analyze (H := ascii_tables) (lit "SHOCKING TRUTH EXPOSED!!!") []).
Proof.
  assert (Hml : 0.9 <= 1) by discriminate.
  assert (Hv : App.predict_news (H := ascii_tables) (fun s => s)
                 (fun _ => (0.9, 0.1)) (lit "model")
                 (lit "SHOCKING TRUTH EXPOSED!!!") [] !! "verdict"%string
               = Some (VStr (lit "HIGH RISK - Likely Fake News")))
    by (vm_compute; reflexivity).
  split; [exact Hml | split; [exact Hv|]].
  exact (proj2 (high_risk_needs_both (H := ascii_tables) (fun s => s)
                  (fun _ => (0.9, 0.1)) (lit "model")
                  (lit "SHOCKING TRUTH EXPOSED!!!") [] Hml Hv)).
Defined.

(** ** Regular expressions and [preprocess_text] *)

Section RegexFacts.
Import PyStr Py Re AppText.

(** Removing the matches of a pattern only removes characters. *)
Lemma sub_from_delete_In (r : regex) (s : str) (skip : nat) (c : char) :
  In c (sub_from r [] skip s) -> In c s.
Proof.
  revert skip; induction s as [|x s IH]; intros skip; [simpl; tauto|].
  cbn [sub_from]. destruct skip as [|j].
  - destruct (match_at r (x :: s)).
    + rewrite app_nil_l. intros Hin. right. exact (IH _ Hin).
    + intros [->|Hin]; [left; reflexivity | right; exact (IH _ Hin)].
  - intros Hin. right. exact (IH _ Hin).
Qed.

(** A one-character class: the substitution is a filter. *)
Lemma sub_class_filter (p : char -> bool) (s : str) :
  sub (Cls p) [] s = List.filter (fun c => negb (p c)) s.
Proof.
  unfold sub. induction s as [|x s IH]; [reflexivity|].
  cbn [sub_from match_at rmatch List.filter].
  destruct (p x); cbn [negb].
  - rewrite app_nil_l.
    replace (length (x :: s) - length s - 1)%nat with 0%nat
      by (cbn [length]; lia).
    exact IH.
  - rewrite IH. reflexivity.
Qed.

(** The greedy repetition of whitespace takes the whole run. *)
Lemma plus_match_isspace (x : char) (s : str) :
  plus_match isspace (x :: s) Some
  = if isspace x then Some (lstrip s) else None.
Proof.
  revert x; induction s as [|y s IH]; intros x.
  - simpl. destruct (isspace x); reflexivity.
  - cbn [plus_match] in *. destruct (isspace x); [|reflexivity].
    specialize (IH y). cbn [lstrip].
    destruct (isspace y).
    + rewrite IH. reflexivity.
    + reflexivity.
Qed.

Lemma lstrip_length (s : str) : (length (lstrip s) <= length s)%nat.
Proof.
  induction s as [|x s IH]; [reflexivity|]. simpl.
  destruct (isspace x); simpl; lia.
Qed.

Lemma sub_spaces_collapse (s : str) (skip : nat) (prev : bool) :
  (if prev then skip = (length s - length (lstrip s))%nat else skip = 0%nat) ->
  sub_from spaces_pattern (lit " ") skip s = Derived.collapse prev s.
Proof.
  revert skip prev; induction s as [|x s IH]; intros skip prev Hinv;
    [reflexivity|].
  pose proof (lstrip_length s) as Hlen.
  cbn [sub_from Derived.collapse]. cbn [lstrip length] in Hinv.
  unfold spaces_pattern, match_at. cbn [rmatch].
  rewrite plus_match_isspace.
  destruct prev.
  - destruct (isspace x) eqn:Hx.
    + assert (skip = S (length s - length (lstrip s))) as -> by lia.
      apply IH. reflexivity.
    + assert (skip = 0%nat) as -> by (cbn [length] in Hinv; lia).
      f_equal. apply IH. reflexivity.
  - subst skip. destruct (isspace x) eqn:Hx.
    + change (lit " ") with [chr " "]. cbn [app]. f_equal.
      apply IH. cbn [length]. lia.
    + f_equal. apply IH. reflexivity.
Qed.

Lemma collapse_head (s : str) (c : char) :
  head (Derived.collapse true s) = Some c -> isspace c = false.
Proof.
  induction s as [|x s IH]; [discriminate|]. cbn [Derived.collapse].
  destruct (isspace x) eqn:Hx; [exact IH|].
  intros [= <-]. exact Hx.
Qed.

Lemma collapse_single_spaced (prev : bool) (s : str) :
  Derived.single_spaced (Derived.collapse prev s) = true.
Proof.
  revert prev; induction s as [|x s IH]; intros prev; [reflexivity|].
  cbn [Derived.collapse]. destruct (isspace x) eqn:Hx.
  - destruct prev; [apply IH|].
    cbn [Derived.single_spaced]. pose proof (collapse_head s) as Hh.
    specialize (IH true).
    destruct (Derived.collapse true s) as [|d t]; [reflexivity|].
    rewrite (Hh d eq_refl), andb_false_r, IH. reflexivity.
  - cbn [Derived.single_spaced]. specialize (IH false).
    destruct (Derived.collapse false s) as [|d t]; [reflexivity|].
    rewrite Hx, IH. reflexivity.
Qed.

Lemma collapse_In (prev : bool) (s : str) (c : char) :
  In c (Derived.collapse prev s) ->
  c = chr " " \/ (In c s /\ isspace c = false).
Proof.
  revert prev; induction s as [|x s IH]; intros prev; [simpl; tauto|].
  cbn [Derived.collapse]. destruct (isspace x) eqn:Hx.
  - destruct prev.
    + intros Hin. destruct (IH _ Hin) as [E|[Hs Hc]]; [left; exact E|].
      right. split; [right; exact Hs | exact Hc].
    + intros [<-|Hin]; [left; reflexivity|].
      destruct (IH _ Hin) as [E|[Hs Hc]]; [left; exact E|].
      right. split; [right; exact Hs | exact Hc].
  - intros [<-|Hin]; [right; split; [left; reflexivity | exact Hx]|].
    destruct (IH _ Hin) as [E|[Hs Hc]]; [left; exact E|].
    right. split; [right; exact Hs | exact Hc].
Qed.

Lemma single_spaced_tail (x : char) (s : str) :
  Derived.single_spaced (x :: s) = true -> Derived.single_spaced s = true.
Proof.
  cbn [Derived.single_spaced]. destruct s as [|y s]; [reflexivity|].
  intros Hs. apply andb_true_iff in Hs as [_ Hs]. exact Hs.
Qed.

Lemma single_spaced_suffix (l s : str) :
  Derived.single_spaced (l ++ s) = true -> Derived.single_spaced s = true.
Proof.
  induction l as [|x l IH]; [tauto|]. intros Hs. apply IH.
  exact (single_spaced_tail x (l ++ s) Hs).
Qed.

Lemma single_spaced_prefix (s r : str) :
  Derived.single_spaced (s ++ r) = true -> Derived.single_spaced s = true.
Proof.
  induction s as [|x s IH]; [reflexivity|]. intros Hs.
  pose proof (single_spaced_tail x (s ++ r) Hs) as Ht. specialize (IH Ht).
  cbn [Derived.single_spaced app] in *. destruct s as [|y s]; [reflexivity|].
  cbn [app] in Hs. apply andb_true_iff in Hs as [Hxy _].
  rewrite Hxy, IH. reflexivity.
Qed.

Lemma isspace_printable (c : char) :
  (33 <= c)%N -> (c <= 132)%N -> isspace c = false.
Proof.
  intros Hlo Hhi. unfold isspace.
  assert ((c <=? 13)%N = false) as -> by (apply N.leb_gt; lia).
  assert ((c <=? 32)%N = false) as -> by (apply N.leb_gt; lia).
  assert ((8192 <=? c)%N = false) as -> by (apply N.leb_gt; lia).
  assert ((c =? 133)%N = false) as -> by (apply N.eqb_neq; lia).
  assert ((c =? 160)%N = false) as -> by (apply N.eqb_neq; lia).
  assert ((c =? 5760)%N = false) as -> by (apply N.eqb_neq; lia).
  assert ((c =? 8232)%N = false) as -> by (apply N.eqb_neq; lia).
  assert ((c =? 8233)%N = false) as -> by (apply N.eqb_neq; lia).
  assert ((c =? 8239)%N = false) as -> by (apply N.eqb_neq; lia).
  assert ((c =? 8287)%N = false) as -> by (apply N.eqb_neq; lia).
  assert ((c =? 12288)%N = false) as -> by (apply N.eqb_neq; lia).
  rewrite !andb_false_r. reflexivity.
Qed.

Lemma plain_space (c : char) :
  Derived.plain c = true -> isspace c = true -> c = chr " ".
Proof.
  unfold Derived.plain. intros Hp Hs.
  destruct (N.eqb_spec c (chr " ")) as [E|_]; [exact E|]. exfalso.
  assert (Hrange : (33 <= c)%N /\ (c <= 132)%N).
  { unfold ascii_islower, ascii_isupper in Hp.
    rewrite !orb_false_r in Hp. rewrite !orb_true_iff in Hp.
    rewrite !andb_true_iff, !N.leb_le, !N.eqb_eq in Hp.
    change (chr ".") with 46%N in Hp. change (chr ",") with 44%N in Hp.
    change (chr "!") with 33%N in Hp. change (chr "?") with 63%N in Hp.
    lia. }
  rewrite (isspace_printable c) in Hs by tauto. discriminate.
Qed.

Lemma kept_plain (c : char) :
  kept c = true -> isspace c = false -> Derived.plain c = true.
Proof.
  unfold kept, Derived.plain. intros Hk Hs. rewrite Hs in Hk.
  destruct (ascii_islower c), (ascii_isupper c), (c =? chr " ")%N,
    (c =? chr ".")%N, (c =? chr ",")%N, (c =? chr "!")%N, (c =? chr "?")%N;
    cbn in *; first [reflexivity | discriminate].
Qed.

Context `{UnicodeData}.

Lemma preprocess_text_normalised (text : str) :
  Derived.normalised (preprocess_text text).
Proof.
  unfold preprocess_text. destruct text as [|c0 text0].
  { repeat split; intros; discriminate. }
  set (u := sub other_pattern []
              (sub email_pattern [] (sub url_pattern [] (lower (c0 :: text0))))).
  assert (Hu : forall c, In c u -> kept c = true).
  { intros c Hc. unfold u, other_pattern in Hc. rewrite sub_class_filter in Hc.
    apply filter_In in Hc as [_ Hc]. rewrite negb_involutive in Hc. exact Hc. }
  assert (Hv : sub spaces_pattern (lit " ") u = Derived.collapse false u)
    by (apply (sub_spaces_collapse u 0 false); reflexivity).
  rewrite Hv.
  destruct (strip_decompose (Derived.collapse false u)) as [l [r [Hd _]]].
  split; [|split; [|split; [apply strip_head | apply strip_last]]].
  - apply forallb_forall. intros c Hc.
    assert (Hin : In c (Derived.collapse false u)).
    { rewrite Hd. apply in_or_app. right. apply in_or_app. left. exact Hc. }
    destruct (collapse_In _ _ _ Hin) as [->|[Hcu Hsp]]; [reflexivity|].
    apply kept_plain; [apply Hu, Hcu | exact Hsp].
  - pose proof (collapse_single_spaced false u) as Hs. rewrite Hd in Hs.
    apply single_spaced_suffix in Hs. apply single_spaced_prefix in Hs.
    exact Hs.
Qed.

End RegexFacts.

(** X16. Whatever the input, the text [preprocess_text] returns is made only
    of ASCII letters, single spaces and the marks . , ! ? ; it has no
    leading or trailing whitespace and no two whitespace characters in a
    row. *)
Theorem preprocess_text_normal_form `{UnicodeData} (text : str) :
  let cleaned := AppText.preprocess_text text in
  (forall c : char, In c cleaned -> plain c = true)
  /\ (forall c : char, In c cleaned -> isspace c = true -> c = chr " ")
  /\ single_spaced cleaned = true
  /\ (forall c : char, head cleaned = Some c -> isspace c = false)
  /\ (forall c : char, last cleaned = Some c -> isspace c = false).
Proof.
  intros cleaned.
  destruct (preprocess_text_normalised text) as (Hp & Hs & Hh & Hl).
  fold cleaned in Hp, Hs, Hh, Hl.
  assert (Hplain : forall c : char, In c cleaned -> plain c = true)
    by (apply forallb_forall; exact Hp).
  split; [exact Hplain|].
  split; [|split; [exact Hs | split; [exact Hh | exact Hl]]].
  intros c Hc Hsp. exact (plain_space c (Hplain c Hc) Hsp).
Qed.

Lemma preprocess_text_normal_form_witness :
  In (chr "o")
    (AppText.preprocess_text (H := ascii_tables)
       (lit "Visit HTTP://x.y NOW!!  mail me@x.org 123 ok?"))
  /\ plain (chr "o") = true.
Proof.
  assert (Hin : In (chr "o")
                  (AppText.preprocess_text (H := ascii_tables)
                     (lit "Visit HTTP://x.y NOW!!  mail me@x.org 123 ok?")))
    by (vm_compute; tauto).
  split; [exact Hin|].
  exact (proj1 (preprocess_text_normal_form (H := ascii_tables)
                  (lit "Visit HTTP://x.y NOW!!  mail me@x.org 123 ok?"))
           (chr "o") Hin).
Defined.

(** X17. [predict_news] consults the classifier only on preprocessed text:
    two classifiers that agree on every text in the normal form of X16 give
    the same result. *)
Theorem classifier_sees_normalised_text `{UnicodeData}
    (predict_proba predict_proba' : str -> Q * Q)
    (model_name headline body : str) :
  (forall t : str, normalised t -> predict_proba t = predict_proba' t) ->
  App.predict_news AppText.preprocess_text predict_proba model_name
    headline body
  = App.predict_news AppText.preprocess_text predict_proba' model_name
      headline body.
Proof.
  intros Hagree. unfold App.predict_news.
  destruct (strip (headline ++ lit " " ++ body)) as [|c0 content];
    [reflexivity|].
  rewrite (Hagree _ (preprocess_text_normalised (c0 :: content))).
  reflexivity.
Qed.

Lemma classifier_sees_normalised_text_witness :
  let p := fun _ : str => (0.3, 0.7) in
  let p' := fun t : str => if forallb plain t then (0.3, 0.7) else (1, 0) in
  (forall t : str, normalised t -> p t = p' t)
  /\ App.predict_news (H := ascii_tables)
       (AppText.preprocess_text (H := ascii_tables)) p
       (lit "model") (lit "Budget 2024: council votes") []
     = App.predict_news (H := ascii_tables)
       (AppText.preprocess_text (H := ascii_tables)) p'
         (lit "model") (lit "Budget 2024: council votes") [].
Proof.
  intros p p'.
  assert (Hagree : forall t : str, normalised t -> p t = p' t).
  { intros t [Hp _]. unfold p, p'. rewrite Hp. reflexivity. }
  split; [exact Hagree|].
  apply (classifier_sees_normalised_text (H := ascii_tables) p p'
           (lit "model") (lit "Budget 2024: council votes") [] Hagree).
Defined.

(** ** The route [/analyze] *)

Section RouteFacts.
Import PyStr Py Spec TextAnalyzer.

Lemma head_app_nonempty (l r : str) : l <> [] -> head (l ++ r) = head l.
Proof. destruct l; [congruence | reflexivity]. Qed.

Lemma last_app_nonempty (l r : str) : r <> [] -> last (l ++ r) = last r.
Proof.
  intros Hr. induction l as [|x l IH]; [reflexivity|].
  cbn [app]. destruct (l ++ r) as [|y t] eqn:E.
  - apply app_eq_nil in E as [_ E]. congruence.
  - exact IH.
Qed.

(** Headline and body already trimmed, the headline not empty: the combined
    text is the headline, followed by a space and the body when there is
    one. *)
Lemma strip_concatenation_trimmed (headline body : str) :
  strip headline <> [] ->
  strip (concatenation (strip headline) (strip body))
  = strip headline
    ++ match strip body with [] => [] | _ => chr " " :: strip body end.
Proof.
  intros Hh. unfold concatenation. destruct (strip body) as [|y b] eqn:Hb.
  - rewrite !app_nil_r.
    replace (strip headline ++ [chr " "])
      with ([] ++ strip headline ++ [chr " "]) by reflexivity.
    rewrite (strip_pad [] (strip headline) [chr " "]) by reflexivity.
    apply strip_idempotent.
  - apply strip_fixed.
    + intros c. rewrite head_app_nonempty by exact Hh. apply strip_head.
    + intros c. change (strip headline ++ [chr " "] ++ y :: b)
        with (strip headline ++ ([chr " "] ++ y :: b)).
      rewrite last_app_nonempty by discriminate.
      change (last (chr " " :: y :: b)) with (last (y :: b)).
      rewrite <- Hb. apply strip_last.
Qed.

End RouteFacts.



(** X19. For a payload with a non-blank headline, what the route analyses
    is the trimmed headline, followed by one space and the trimmed body when
    the body is not blank: the heuristic details of the answer are those of
    the analysis of that text alone. *)
Theorem route_analysed_text `{UnicodeData}
    (predict_proba : str -> Q * Q) (model_name headline body : str) :
  let data : gmap string Routes.json :=
    <[ "body"%string := Routes.JString body ]>
      {[ "headline"%string := Routes.JString headline ]} in
  let text :=
    strip headline
    ++ match strip body with [] => [] | _ => chr " " :: strip body end in
  strip headline <> [] ->
  exists result : gmap string value,
    Routes.analyze predict_proba model_name (Some data)
    = Routes.Response result 200
    /\ result !! "heuristic_details"%string
       = Some (VDict (snd (analyze text [])))
    /\ strip (concatenation text []) = text
    /\ is_Some (result !! "verdict"%string).
Proof.
  intros data text Hne.
  assert (Hh : Routes.get_stripped data "headline" = Some (strip headline)).
  { unfold Routes.get_stripped, data.
    rewrite lookup_insert_ne by discriminate.
    rewrite lookup_singleton_eq. reflexivity. }
  assert (Hb : Routes.get_stripped data "body" = Some (strip body)).
  { unfold Routes.get_stripped, data. rewrite lookup_insert_eq. reflexivity. }
  assert (Htext : strip (concatenation (strip headline) (strip body)) = text)
    by (apply strip_concatenation_trimmed, Hne).
  assert (Hfix : strip (concatenation text []) = text).
  { unfold concatenation. rewrite app_nil_r.
    replace (text ++ [chr " "]) with ([] ++ text ++ [chr " "]) by reflexivity.
    rewrite (strip_pad [] text [chr " "]) by reflexivity.
    rewrite <- Htext. apply strip_idempotent. }
  assert (Hcontent : strip (concatenation (strip headline) (strip body)) <> []).
  { rewrite Htext. unfold text. destruct (strip headline); [congruence|].
    discriminate. }
  eexists. split; [|split; [|split; [exact Hfix|]]].
  - unfold Routes.analyze. rewrite Hh, Hb.
    destruct (strip headline) as [|c0 h0] eqn:Eh; [congruence|].
    rewrite <- Eh in *.
    destruct (predict_news_entries AppText.preprocess_text predict_proba
                model_name (strip headline) (strip body) Hcontent)
      as (_ & _ & _ & _ & He & _).
    rewrite He. reflexivity.
  - destruct (predict_news_entries AppText.preprocess_text predict_proba
                model_name (strip headline) (strip body) Hcontent)
      as (_ & _ & _ & Hd & _).
    rewrite Hd. do 2 f_equal. f_equal. apply analyze_combined_text.
    rewrite Hfix, Htext. reflexivity.
  - destruct (predict_news_entries AppText.preprocess_text predict_proba
                model_name (strip headline) (strip body) Hcontent)
      as (Hv & _).
    rewrite Hv. eexists; reflexivity.
Qed.

Lemma route_analysed_text_witness :
  strip (lit " Storm warning ") <> []
  /\ exists result : gmap string value,
       Routes.analyze (H := ascii_tables) (fun _ => (0.5, 0.5)) (lit "model")
         (Some (<[ "body"%string := Routes.JString (lit "  more at ten ") ]>
                  {[ "headline"%string
                       := Routes.JString (lit " Storm warning ") ]}))
       = Routes.Response result 200
       /\ result !! "heuristic_details"%string
          = Some (VDict (snd (analyze (H := ascii_tables)
                                (lit "Storm warning more at ten") []))).
Proof.
  assert (Hne : strip (lit " Storm warning ") <> [])
    by (vm_compute; discriminate).
  split; [exact Hne|].
  destruct (route_analysed_text (H := ascii_tables) (fun _ => (0.5, 0.5))
              (lit "model") (lit " Storm warning ") (lit "  more at ten ") Hne)
    as [result [Hr [Hd _]]].
  exists result. split; [exact Hr | exact Hd].
Defined.

(** ** What the substitutions of [preprocess_text] remove *)

Section SubstitutionFacts.
Import PyStr Py Re AppText.

Lemma sub_from_skip (r : regex) (repl : str) (skip : nat) (s : str) :
  sub_from r repl skip s = sub_from r repl 0 (drop skip s).
Proof.
  revert skip; induction s as [|x s IH]; intros skip.
  - rewrite drop_nil. reflexivity.
  - destruct skip as [|j]; [reflexivity|]. cbn [sub_from drop]. apply IH.
Qed.

(** A non-empty run of non-whitespace followed by whitespace or by the end
    of the text is taken whole by [\S+]. *)
Lemma plus_match_token (t rest : str) :
  t <> [] -> forallb nonspace t = true ->
  (forall c, head rest = Some c -> isspace c = true) ->
  plus_match nonspace (t ++ rest) Some = Some rest.
Proof.
  intros Ht Hall Hrest. induction t as [|x t IH]; [congruence|].
  cbn [forallb] in Hall. apply andb_true_iff in Hall as [Hx Hall].
  cbn [app plus_match]. rewrite Hx. destruct t as [|y t].
  - cbn [app]. destruct rest as [|c rest]; [reflexivity|].
    cbn [plus_match]. unfold nonspace at 1.
    rewrite (Hrest c eq_refl). reflexivity.
  - rewrite IH by (discriminate || exact Hall). reflexivity.
Qed.

Lemma match_at_url (prefix t rest : str) :
  prefix = lit "http" \/ prefix = lit "www" ->
  t <> [] -> forallb nonspace t = true ->
  (forall c, head rest = Some c -> isspace c = true) ->
  match_at url_pattern (prefix ++ t ++ rest) = Some rest.
Proof.
  intros Hp Ht Hall Hrest. unfold match_at, url_pattern.
  pose proof (plus_match_token t rest Ht Hall Hrest) as Hplus.
  destruct Hp as [-> | ->]; cbn [rmatch].
  - change (startswith (lit "http") (lit "http" ++ t ++ rest)) with true.
    cbv iota. change (drop (length (lit "http")) (lit "http" ++ t ++ rest))
      with (t ++ rest).
    rewrite Hplus. reflexivity.
  - change (startswith (lit "http") (lit "www" ++ t ++ rest)) with false.
    cbv iota. change (startswith (lit "www") (lit "www" ++ t ++ rest)) with true.
    cbv iota. change (drop (length (lit "www")) (lit "www" ++ t ++ rest))
      with (t ++ rest).
    rewrite Hplus. reflexivity.
Qed.

Context `{UnicodeData}.

Lemma preprocess_text_In (text : str) (c : char) :
  In c (preprocess_text text) -> c = chr " " \/ In c (lower text).
Proof.
  unfold preprocess_text. destruct text as [|c0 text0]; [simpl; tauto|].
  set (u := sub other_pattern []
              (sub email_pattern [] (sub url_pattern [] (lower (c0 :: text0))))).
  assert (Hv : sub spaces_pattern (lit " ") u = Derived.collapse false u)
    by (apply (sub_spaces_collapse u 0 false); reflexivity).
  rewrite Hv. intros Hc.
  destruct (strip_decompose (Derived.collapse false u)) as [l [r [Hd _]]].
  assert (Hin : In c (Derived.collapse false u)).
  { rewrite Hd. apply in_or_app. right. apply in_or_app. left. exact Hc. }
  destruct (collapse_In _ _ _ Hin) as [->|[Hsub _]]; [left; reflexivity|].
  right. unfold u, sub in Hsub.
  do 3 apply sub_from_delete_In in Hsub. exact Hsub.
Qed.

End SubstitutionFacts.

(** X20. [preprocess_text] invents no character: every character of its
    result other than the space occurs in the lower-cased input. *)
Theorem preprocess_text_no_new_character `{UnicodeData} (text : str) (c : char) :
  In c (AppText.preprocess_text text) ->
  c = chr " " \/ In c (lower text).
Proof. apply preprocess_text_In. Qed.

Lemma preprocess_text_no_new_character_witness :
  In (chr "v")
    (AppText.preprocess_text (H := ascii_tables)
       (lit "Visit HTTP://x.y NOW!!  mail me@x.org 123 ok?"))
  /\ (chr "v" = chr " "
      \/ In (chr "v")
           (lower (UnicodeData := ascii_tables)
              (lit "Visit HTTP://x.y NOW!!  mail me@x.org 123 ok?"))).
Proof.
  assert (Hin : In (chr "v")
                  (AppText.preprocess_text (H := ascii_tables)
                     (lit "Visit HTTP://x.y NOW!!  mail me@x.org 123 ok?")))
    by (vm_compute; tauto).
  split; [exact Hin|].
  exact (preprocess_text_no_new_character (H := ascii_tables) _ _ Hin).
Defined.

(** X21. The first substitution of [preprocess_text] removes an address
    that opens the text: "http" or "www" followed by at least one
    non-whitespace character is deleted up to the next whitespace (or to the
    end of the text), and the substitution goes on with what follows. *)
Theorem url_removed_up_to_whitespace (t rest : str) :
  t <> [] -> forallb AppText.nonspace t = true ->
  (forall c : char, head rest = Some c -> isspace c = true) ->
  Re.sub AppText.url_pattern [] (lit "http" ++ t ++ rest)
  = Re.sub AppText.url_pattern [] rest
  /\ Re.sub AppText.url_pattern [] (lit "www" ++ t ++ rest)
     = Re.sub AppText.url_pattern [] rest.
Proof.
  intros Ht Hall Hrest.
  assert (Hgen : forall prefix : str,
             prefix = lit "http" \/ prefix = lit "www" ->
             Re.sub AppText.url_pattern [] (prefix ++ t ++ rest)
             = Re.sub AppText.url_pattern [] rest).
  { intros prefix Hp.
    pose proof (match_at_url prefix t rest Hp Ht Hall Hrest) as Hm.
    assert (Hcons : exists x s', prefix ++ t ++ rest = x :: s').
    { destruct Hp as [-> | ->]; eexists; eexists; reflexivity. }
    destruct Hcons as [x [s' Es]]. unfold Re.sub. rewrite Es in *.
    cbn [Re.sub_from]. rewrite Hm. rewrite app_nil_l, sub_from_skip.
    f_equal.
    assert (Hpre : (1 <= length prefix)%nat)
      by (destruct Hp as [-> | ->]; cbn; lia).
    assert (Hn : (length (x :: s') - length rest - 1
                  = length (prefix ++ t) - 1)%nat)
      by (rewrite <- Es, !length_app; lia).
    rewrite Hn.
    assert (Es' : s' = drop 1 (prefix ++ t ++ rest)) by (rewrite Es; reflexivity).
    rewrite Es', drop_drop.
    replace (1 + (length (prefix ++ t) - 1))%nat with (length (prefix ++ t))
      by (rewrite length_app; lia).
    rewrite app_assoc. apply drop_app_length. }
  split; apply Hgen; [left | right]; reflexivity.
Qed.

Lemma url_removed_up_to_whitespace_witness :
  lit "://example.org/a?b=1" <> []
  /\ forallb AppText.nonspace (lit "://example.org/a?b=1") = true
  /\ (forall c : char, head (lit " is down") = Some c -> isspace c = true)
  /\ Re.sub AppText.url_pattern []
       (lit "http" ++ lit "://example.org/a?b=1" ++ lit " is down")
     = Re.sub AppText.url_pattern [] (lit " is down").
Proof.
  assert (Ht : lit "://example.org/a?b=1" <> []) by (vm_compute; discriminate).
  assert (Hall : forallb AppText.nonspace (lit "://example.org/a?b=1") = true)
    by reflexivity.
  assert (Hrest : forall c : char,
             head (lit " is down") = Some c -> isspace c = true)
    by (intros c Hc; vm_compute in Hc; injection Hc as <-; reflexivity).
  split; [exact Ht | split; [exact Hall | split; [exact Hrest|]]].
  exact (proj1 (url_removed_up_to_whitespace _ _ Ht Hall Hrest)).
Defined.
